(** * Orders API (server.js): validation, statement building, key allocation

    A shallow embedding of the order routes of [server.js]:
    [POST /orders], [PUT /orders/:ORD_NUM], [PATCH /orders/:ORD_NUM] and
    [DELETE /orders/:ORD_NUM].

    The routes are Express handlers guarded by express-validator chains and
    talking to a MariaDB pool.  The embedding has four layers:

    - [Js]: the JavaScript values that travel in a request (JSON scalars),
      objects as association lists in enumeration order;
    - [Validator]: the validator.js predicates and sanitizers the chains call;
    - the chain interpreter of express-validator and the rule sets of the
      four routes, written with the builder combinators of the source;
    - the store (orders table, pool, statement log) and the handlers.

    Strings are sequences of 8-bit code units.  Numbers are the doubles
    with an integer value: sums are rounded to the nearest double and
    [String(n)] is the shortest text that reads back, in exponent form
    from [1e21].  [isDate] and [isISO8601] are kept abstract: every result
    holds whatever these two predicates accept.

    The store stands for the database behind the pool, which is not part
    of the repository.  Two of its conventions are choices of the
    embedding: a key bound as a text is looked up only when the text is an
    integer (the engine refuses any other), and a planned failure is
    raised in place of the engine's answer.  The properties of the keyed
    writes are stated for integer keys, and those of a failed statement
    speak of the answer and of what was sent. *)

From Stdlib Require Import ZArith String Ascii List Bool Lia DecimalString.
Import ListNotations.
Open Scope string_scope.

(* ------------------------------------------------------------------ *)
(** ** JavaScript values *)

Module Js.

(** A JSON scalar.  [undefined] is the [None] of [option jsval].  The
    Number [JNum n] is the double of integer value [n]. *)
Inductive jsval : Type :=
| JNull
| JBool (b : bool)
| JNum (n : Z)
| JStr (s : string).

(** An object: its own enumerable properties in [for ... in] order. *)
Definition obj : Type := list (string * jsval).

(** [o[k]] *)
Fixpoint get (k : string) (o : obj) : option jsval :=
  match o with
  | [] => None
  | (k', v) :: o' => if String.eqb k k' then Some v else get k o'
  end.

(** [o[k] = v]: an existing property keeps its place, a new one goes last. *)
Fixpoint set (k : string) (v : jsval) (o : obj) : obj :=
  match o with
  | [] => [(k, v)]
  | (k', v') :: o' =>
      if String.eqb k k' then (k', v) :: o' else (k', v') :: set k v o'
  end.

Definition keys (o : obj) : list string := map fst o.
Definition values (o : obj) : list jsval := map snd o.

(** [a === b] on scalars. *)
Definition strict_eq (a b : jsval) : bool :=
  match a, b with
  | JNull, JNull => true
  | JBool x, JBool y => Bool.eqb x y
  | JNum x, JNum y => Z.eqb x y
  | JStr x, JStr y => String.eqb x y
  | _, _ => false
  end.

(** [a === b] where either side may be [undefined]. *)
Definition strict_eq_opt (a b : option jsval) : bool :=
  match a, b with
  | None, None => true
  | Some x, Some y => strict_eq x y
  | _, _ => false
  end.

(** *** Numbers

    A Number is a double.  The embedding holds the integer ones, as the
    integer they are worth; every integer up to [2^53] in magnitude is one,
    and above it an integer stands for the double nearest to it. *)

Definition two53 : Z := 9007199254740992.

(** The double nearest to an integer, ties going to the even mantissa.
    (Integers are taken below [2^1024]; no integer column holds more.) *)
Definition to_double (n : Z) : Z :=
  let a := Z.abs n in
  if (a <=? two53)%Z then n
  else
    let e := (Z.log2 a - 52)%Z in
    let q := (a / 2 ^ e)%Z in
    let r := (a mod 2 ^ e)%Z in
    let h := (2 ^ (e - 1))%Z in
    let q' :=
      if (r <? h)%Z then q
      else if (h <? r)%Z then (q + 1)%Z
      else if Z.even q then q else (q + 1)%Z in
    (Z.sgn n * (q' * 2 ^ e))%Z.

(** [a + b] on integer Numbers: the exact sum, rounded. *)
Definition js_add (a b : Z) : Z := to_double (a + b).

Definition decimal (n : Z) : string := NilZero.string_of_int (Z.to_int n).

(** The decimal with the fewest significant digits that still reads back
    as the double [a], and among those the nearest to [a] (the even one on
    a tie): the multiples of [10^j] on either side of [a] are tried from
    the largest [j] down. *)
Fixpoint shortest (j : nat) (a : Z) : Z :=
  let p := (10 ^ Z.of_nat j)%Z in
  let lo := (a / p * p)%Z in
  let hi := (lo + p)%Z in
  let lo_ok := (to_double lo =? a)%Z in
  let hi_ok := (to_double hi =? a)%Z in
  let pick :=
    if lo_ok && hi_ok then
      if (a - lo <? hi - a)%Z then Some lo
      else if (hi - a <? a - lo)%Z then Some hi
      else if Z.even (lo / p) then Some lo else Some hi
    else if lo_ok then Some lo
    else if hi_ok then Some hi
    else None in
  match pick, j with
  | Some c, _ => c
  | None, O => a
  | None, S j' => shortest j' a
  end.

Fixpoint strip_zeros (s : string) : string :=
  match s with
  | EmptyString => EmptyString
  | String c s' =>
      match strip_zeros s' with
      | EmptyString =>
          if Ascii.eqb c "0" then EmptyString else String c EmptyString
      | t => String c t
      end
  end.

(** The digits of an integer of more than 21 digits, in exponent form:
    [d.ddde+n], or [de+n] when one digit is significant. *)
Definition exponent_form (digits : string) : string :=
  let e := decimal (Z.of_nat (String.length digits) - 1) in
  match strip_zeros digits with
  | String d EmptyString => String d ("e+" ++ e)
  | String d rest => String d ("." ++ rest ++ "e+" ++ e)
  | EmptyString => digits
  end.

(** [String(n)] for an integer Number: its digits up to [2^53]; above,
    the shortest digits that read back as the same double, written out
    with their zeros up to 21 digits and in exponent form beyond. *)
Definition number_to_string (n : Z) : string :=
  let x := to_double n in
  let a := Z.abs x in
  if (a <=? two53)%Z then decimal x
  else
    let digits := decimal (shortest (Z.to_nat (Z.log2 a)) a) in
    let text :=
      if (String.length digits <=? 21)%nat then digits
      else exponent_form digits in
    if (x <? 0)%Z then "-" ++ text else text.

(** express-validator's [toString(value)]: what a standard validator or
    sanitizer receives.  [undefined] and [null] become the empty string. *)
Definition toString (v : option jsval) : string :=
  match v with
  | None => EmptyString
  | Some JNull => EmptyString
  | Some (JBool true) => "true"
  | Some (JBool false) => "false"
  | Some (JNum n) => number_to_string n
  | Some (JStr s) => s
  end.

(** [typeof v === 'string'] *)
Definition is_string (v : option jsval) : bool :=
  match v with
  | Some (JStr _) => true
  | _ => false
  end.

(** [m || 0] on a nullable integer: [null] and [0] are the falsy ones. *)
Definition or_zero (m : option Z) : Z :=
  match m with
  | Some n => if Z.eqb n 0 then 0%Z else n
  | None => 0%Z
  end.

End Js.
Import Js.

(* ------------------------------------------------------------------ *)
(** ** validator.js *)

Module Validator.

Definition is_digit (c : ascii) : bool :=
  (48 <=? nat_of_ascii c)%nat && (nat_of_ascii c <=? 57)%nat.

Definition is_sign (c : ascii) : bool :=
  Ascii.eqb c "-" || Ascii.eqb c "+".

(** [\s] over 8-bit code units: TAB, LF, VT, FF, CR, space, NBSP. *)
Definition is_space (c : ascii) : bool :=
  let n := nat_of_ascii c in
  ((9 <=? n)%nat && (n <=? 13)%nat) || (n =? 32)%nat || (n =? 160)%nat.

Fixpoint all_digits (s : string) : bool :=
  match s with
  | EmptyString => true
  | String c s' => is_digit c && all_digits s'
  end.

Definition nonempty (s : string) : bool :=
  match s with
  | EmptyString => false
  | String _ _ => true
  end.

(** An optional sign. *)
Definition skip_sign (s : string) : string :=
  match s with
  | String c s' => if is_sign c then s' else s
  | EmptyString => s
  end.

Definition negative (s : string) : bool :=
  match s with
  | String c _ => Ascii.eqb c "-"
  | EmptyString => false
  end.

(** A greedy run of digits: the digits read and what follows them. *)
Fixpoint span_digits (s : string) : string * string :=
  match s with
  | String c s' =>
      if is_digit c
      then let (d, r) := span_digits s' in (String c d, r)
      else (EmptyString, s)
  | EmptyString => (EmptyString, EmptyString)
  end.

Definition digit_value (c : ascii) : Z := Z.of_nat (nat_of_ascii c - 48).

Fixpoint digits_value_from (acc : Z) (s : string) : Z :=
  match s with
  | EmptyString => acc
  | String c s' => digits_value_from (10 * acc + digit_value c) s'
  end.

Definition digits_value (s : string) : Z := digits_value_from 0 s.

(** [isInt(str)], no options: an optional sign and one digit or more
    (leading zeroes allowed). *)
Definition isInt (s : string) : bool :=
  let d := skip_sign s in nonempty d && all_digits d.

(** The integer an [isInt] text denotes. *)
Definition int_value (s : string) : option Z :=
  if isInt s
  then Some (if negative s then (- digits_value (skip_sign s))%Z
             else digits_value (skip_sign s))
  else None.

(** The decimal pattern: an optional sign, optional digits, and an
    optional point followed by one digit or more. *)
Definition decimal_re (s : string) : bool :=
  let (_, r) := span_digits (skip_sign s) in
  match r with
  | EmptyString => true
  | String c f => Ascii.eqb c "." && nonempty f && all_digits f
  end.

(** [str.replace(/ /g, empty)] *)
Fixpoint remove_spaces (s : string) : string :=
  match s with
  | EmptyString => EmptyString
  | String c s' =>
      if Ascii.eqb c " " then remove_spaces s' else String c (remove_spaces s')
  end.

Definition mem_string (s : string) (l : list string) : bool :=
  existsb (String.eqb s) l.

(** [isDecimal(str)], default options (en-US, no forced decimal). *)
Definition isDecimal (s : string) : bool :=
  negb (mem_string (remove_spaces s) [EmptyString; "-"; "+"]) && decimal_re s.

(** A text matched by the float pattern: an optional sign, optional
    digits, an optional point followed by optional digits, and an optional
    exponent ([e] or [E], an optional sign, one digit or more). *)
Record float_lit : Type := {
  f_neg : bool;        (* a leading [-] *)
  f_int : string;      (* digits before the point *)
  f_frac : string;     (* digits after the point *)
  f_exp : Z            (* the exponent, 0 when absent *)
}.

Definition parse_exponent (r : string) : option Z :=
  match r with
  | EmptyString => Some 0%Z
  | String c e =>
      if Ascii.eqb c "e" || Ascii.eqb c "E"
      then let d := skip_sign e in
           if nonempty d && all_digits d
           then Some (if negative e then (- digits_value d)%Z
                      else digits_value d)
           else None
      else None
  end.

Definition parse_float (s : string) : option float_lit :=
  let (ip, r) := span_digits (skip_sign s) in
  let (fp, r') :=
    match r with
    | String c r1 => if Ascii.eqb c "." then span_digits r1 else (EmptyString, r)
    | EmptyString => (EmptyString, r)
    end in
  match parse_exponent r' with
  | Some e => Some {| f_neg := negative s; f_int := ip; f_frac := fp; f_exp := e |}
  | None => None
  end.

(** [parseFloat(str) >= 0] for a text the pattern matched.  A mantissa
    without digits parses to NaN.  A negative text passes only when it
    rounds to [-0]: its magnitude [m * 10^e] is at most [2^-1075], half
    the least positive double. *)
Definition float_ge0 (l : float_lit) : bool :=
  let digits := f_int l ++ f_frac l in
  let m := digits_value digits in
  let e := (f_exp l - Z.of_nat (String.length (f_frac l)))%Z in
  nonempty digits &&
  (negb (f_neg l) ||
   (m =? 0)%Z ||
   ((e <? 0)%Z && (m * 2 ^ 1075 <=? 10 ^ (- e))%Z)).

(** [isFloat(str, { min: 0 })] *)
Definition isFloat_min0 (s : string) : bool :=
  if mem_string s [EmptyString; "."; ","; "-"; "+"] then false
  else match parse_float s with
       | Some l => float_ge0 l
       | None => false
       end.

(** [isEmpty(str)], default options: [str.length === 0]. *)
Definition isEmpty (s : string) : bool := negb (nonempty s).

(** [isLength(str, { min })]: 8-bit code units carry no surrogate pair. *)
Definition isLength_min (min : nat) (s : string) : bool :=
  (min <=? String.length s)%nat.

(** [ltrim(str)]: drop the leading [\s] run. *)
Fixpoint ltrim (s : string) : string :=
  match s with
  | String c s' => if is_space c then ltrim s' else s
  | EmptyString => EmptyString
  end.

(** [rtrim(str)]: drop the trailing [\s] run. *)
Fixpoint rtrim (s : string) : string :=
  match s with
  | EmptyString => EmptyString
  | String c s' =>
      match rtrim s' with
      | EmptyString => if is_space c then EmptyString else String c EmptyString
      | t => String c t
      end
  end.

(** [trim(str)] is [rtrim(ltrim(str))]. *)
Definition trim (s : string) : string := rtrim (ltrim s).

Definition dquote : ascii := ascii_of_nat 34.

Definition escape_char (c : ascii) : string :=
  if Ascii.eqb c "&" then "&amp;"
  else if Ascii.eqb c dquote then "&quot;"
  else if Ascii.eqb c "'" then "&#x27;"
  else if Ascii.eqb c "<" then "&lt;"
  else if Ascii.eqb c ">" then "&gt;"
  else if Ascii.eqb c "/" then "&#x2F;"
  else if Ascii.eqb c "\" then "&#x5C;"
  else if Ascii.eqb c "`" then "&#96;"
  else String c EmptyString.

(** [escape(str)]: the eight HTML-sensitive characters become entities. *)
Fixpoint escape (s : string) : string :=
  match s with
  | EmptyString => EmptyString
  | String c s' => escape_char c ++ escape s'
  end.

End Validator.
Import Validator.


(** Calendar dates written [YYYY-MM-DD]: the instance of [isISO8601] used
    to run the handlers on sample requests.  The correctness results are
    stated for every predicate in its place. *)
Module Calendar.

Definition leap (y : Z) : bool :=
  ((y mod 4 =? 0) && negb (y mod 100 =? 0) || (y mod 400 =? 0))%Z.

Definition days_in (y m : Z) : Z :=
  if (m =? 2)%Z then (if leap y then 29 else 28)%Z
  else if ((m =? 4) || (m =? 6) || (m =? 9) || (m =? 11))%Z then 30%Z
  else 31%Z.

Definition valid_ymd (y m d : string) : bool :=
  all_digits y && all_digits m && all_digits d &&
  (String.length y =? 4)%nat && (String.length m =? 2)%nat &&
  (String.length d =? 2)%nat &&
  (1 <=? digits_value m)%Z && (digits_value m <=? 12)%Z &&
  (1 <=? digits_value d)%Z &&
  (digits_value d <=? days_in (digits_value y) (digits_value m))%Z.

(** [YYYY<sep>MM<sep>DD] with a valid day of the month. *)
Definition date_with (sep : ascii) (s : string) : bool :=
  match s with
  | String y1 (String y2 (String y3 (String y4 (String s1
      (String m1 (String m2 (String s2 (String d1 (String d2 EmptyString))))))))) =>
      Ascii.eqb s1 sep && Ascii.eqb s2 sep &&
      valid_ymd (String y1 (String y2 (String y3 (String y4 EmptyString))))
                (String m1 (String m2 EmptyString))
                (String d1 (String d2 EmptyString))
  | _ => false
  end.

Definition iso_date (s : string) : bool := date_with "-" s.

(** The instance of [isDate]: [YYYY/MM/DD] or [YYYY-MM-DD]. *)
Definition ymd_date (s : string) : bool := date_with "/" s || date_with "-" s.

End Calendar.

(* ------------------------------------------------------------------ *)
(** ** express-validator: chains as data *)

Module Chain.

(** Where a chain reads its field: [body(...)] or [param(...)]. *)
Inductive location : Type := Body | Params.

Inductive validator : Type :=
| IsInt
| IsFloat_min0
| IsDecimal
| IsDate
| IsISO8601
| IsEmpty
| IsLength_min (min : nat)
| IsString.

Inductive sanitizer : Type := Trim | Escape.

(** One entry of a chain's stack.  A validation records whether [.not()]
    preceded it and the message [withMessage] gave it. *)
Inductive item : Type :=
| Validation (v : validator) (negated : bool) (message : string)
| Sanitization (s : sanitizer).

Record chain : Type := {
  c_location : location;
  c_path : string;
  c_optional : bool;
  c_stack : list item
}.

(** One entry of [validationResult(req).array()].  The spec's [field] is
    the library's [path] and its [message] the library's [msg]. *)
Record verror : Type := {
  location_ : location;
  path : string;
  msg : string;
  value : option jsval
}.

Definition field (l : location) (p : string) : chain :=
  {| c_location := l; c_path := p; c_optional := false; c_stack := [] |}.

Definition body : string -> chain := field Body.
Definition param : string -> chain := field Params.

Definition push (it : item) (c : chain) : chain :=
  {| c_location := c_location c; c_path := c_path c;
     c_optional := c_optional c; c_stack := c_stack c ++ [it] |}.

(** A validator enters the stack with the library's default message. *)
Definition check (v : validator) : chain -> chain :=
  push (Validation v false "Invalid value").

Definition isInt : chain -> chain := check IsInt.
Definition isFloat_min0 : chain -> chain := check IsFloat_min0.
Definition isDecimal : chain -> chain := check IsDecimal.
Definition isDate : chain -> chain := check IsDate.
Definition isISO8601 : chain -> chain := check IsISO8601.
Definition isString : chain -> chain := check IsString.
Definition isLength_min (min : nat) : chain -> chain := check (IsLength_min min).

(** [notEmpty()] is [not().isEmpty()]. *)
Definition notEmpty : chain -> chain :=
  push (Validation IsEmpty true "Invalid value").

Definition trim : chain -> chain := push (Sanitization Trim).
Definition escape : chain -> chain := push (Sanitization Escape).

(** [optional()]: the chain skips a field that is [undefined]. *)
Definition optional (c : chain) : chain :=
  {| c_location := c_location c; c_path := c_path c;
     c_optional := true; c_stack := c_stack c |}.

Fixpoint message_last (m : string) (rev_stack : list item) : list item :=
  match rev_stack with
  | [] => []
  | Validation v n _ :: r => Validation v n m :: r
  | it :: r => it :: message_last m r
  end.

(** [withMessage(m)] names the message of the last validator added. *)
Definition withMessage (m : string) (c : chain) : chain :=
  {| c_location := c_location c; c_path := c_path c;
     c_optional := c_optional c;
     c_stack := rev (message_last m (rev (c_stack c))) |}.

End Chain.
Import Chain.

Notation "c '|>' f" := (f c) (at level 45, left associativity, only parsing).

(* ------------------------------------------------------------------ *)
(** ** The store: orders table, pool and statement log *)

Module Store.

(** A row of [orders].  [ORD_NUM] is an integer column; the other columns
    keep the value that was bound. *)
Record order : Type := {
  ORD_NUM : Z;
  ORD_AMOUNT : jsval;
  ADVANCE_AMOUNT : jsval;
  ORD_DATE : jsval;
  CUST_CODE : jsval;
  AGENT_CODE : jsval;
  ORD_DESCRIPTION : jsval
}.

(** What the handlers ask of the pool, in the order they ask it. *)
Inductive db_event : Type :=
| GetConnection
| Query (sql : string) (values : list jsval)
| Release.

(** The table, the failures the pool and the engine are going to raise
    (one entry per [getConnection] or [query], [None] for none, nothing
    raised once the list is used up) and the requests made so far. *)
Record world : Type := {
  orders : list order;
  faults : list (option string);
  trace : list db_event
}.

(** An awaited call returned or threw [Error(message)]. *)
Inductive outcome (A : Type) : Type :=
| Returned (a : A)
| Thrown (message : string).
Arguments Returned {A} a.
Arguments Thrown {A} message.

Definition io (A : Type) : Type := world -> outcome A * world.

Definition ret {A : Type} (a : A) : io A := fun w => (Returned a, w).

Definition throw {A : Type} (m : string) : io A := fun w => (Thrown m, w).

Definition bind {A B : Type} (c : io A) (k : A -> io B) : io B :=
  fun w =>
    match c w with
    | (Returned a, w') => k a w'
    | (Thrown m, w') => (Thrown m, w')
    end.

(** What [conn.query] resolves to: the rows of [SELECT MAX(ORD_NUM) AS
    maxNum] (each row is its [maxNum]) or the packet of a write. *)
Inductive query_result : Type :=
| Rows (maxNums : list (option Z))
| OkPacket (affectedRows : nat).

(** *** The engine *)

Definition sql_select_max : string :=
  "SELECT MAX(ORD_NUM) AS maxNum FROM orders".

Definition sql_insert : string :=
  "INSERT INTO orders (ORD_NUM, ORD_AMOUNT, ADVANCE_AMOUNT, ORD_DATE, CUST_CODE, AGENT_CODE, ORD_DESCRIPTION) VALUES (?, ?, ?, ?, ?, ?, ?)".

Definition sql_update : string :=
  "UPDATE orders SET ORD_AMOUNT=?, ADVANCE_AMOUNT=?, ORD_DATE=?, CUST_CODE=?, AGENT_CODE=?, ORD_DESCRIPTION=? WHERE ORD_NUM=?".

Definition sql_delete : string := "DELETE FROM orders WHERE ORD_NUM=?".

(** [MAX(ORD_NUM)]: [NULL] on an empty table. *)
Fixpoint max_ord_num (t : list order) : option Z :=
  match t with
  | [] => None
  | r :: t' =>
      match max_ord_num t' with
      | None => Some (ORD_NUM r)
      | Some m => Some (Z.max (ORD_NUM r) m)
      end
  end.

(** A bound value compared with, or stored in, the integer column: a
    Number, or a text that [isInt] accepts.  What the database makes of
    any other text (a decimal point, an exponent, letters) is its own
    conversion, which the handlers neither see nor rely on; the engine
    below refuses such a key. *)
Definition sql_int (v : jsval) : option Z :=
  match v with
  | JNum n => Some n
  | JStr s => int_value s
  | _ => None
  end.

Definition has_key (k : Z) (r : order) : bool := (ORD_NUM r =? k)%Z.

Fixpoint distinct_keys (t : list order) : bool :=
  match t with
  | [] => true
  | r :: t' => negb (existsb (has_key (ORD_NUM r)) t') && distinct_keys t'
  end.

Definition column_names : list string :=
  ["ORD_NUM"; "ORD_AMOUNT"; "ADVANCE_AMOUNT"; "ORD_DATE"; "CUST_CODE";
   "AGENT_CODE"; "ORD_DESCRIPTION"].

(** [SET c = v] on one row; [None] for an unknown column or a key that is
    not an integer. *)
Definition set_column (c : string) (v : jsval) (r : order) : option order :=
  if String.eqb c "ORD_NUM" then
    match sql_int v with
    | Some k =>
        Some {| ORD_NUM := k; ORD_AMOUNT := ORD_AMOUNT r;
                ADVANCE_AMOUNT := ADVANCE_AMOUNT r; ORD_DATE := ORD_DATE r;
                CUST_CODE := CUST_CODE r; AGENT_CODE := AGENT_CODE r;
                ORD_DESCRIPTION := ORD_DESCRIPTION r |}
    | None => None
    end
  else if String.eqb c "ORD_AMOUNT" then
    Some {| ORD_NUM := ORD_NUM r; ORD_AMOUNT := v;
            ADVANCE_AMOUNT := ADVANCE_AMOUNT r; ORD_DATE := ORD_DATE r;
            CUST_CODE := CUST_CODE r; AGENT_CODE := AGENT_CODE r;
            ORD_DESCRIPTION := ORD_DESCRIPTION r |}
  else if String.eqb c "ADVANCE_AMOUNT" then
    Some {| ORD_NUM := ORD_NUM r; ORD_AMOUNT := ORD_AMOUNT r;
            ADVANCE_AMOUNT := v; ORD_DATE := ORD_DATE r;
            CUST_CODE := CUST_CODE r; AGENT_CODE := AGENT_CODE r;
            ORD_DESCRIPTION := ORD_DESCRIPTION r |}
  else if String.eqb c "ORD_DATE" then
    Some {| ORD_NUM := ORD_NUM r; ORD_AMOUNT := ORD_AMOUNT r;
            ADVANCE_AMOUNT := ADVANCE_AMOUNT r; ORD_DATE := v;
            CUST_CODE := CUST_CODE r; AGENT_CODE := AGENT_CODE r;
            ORD_DESCRIPTION := ORD_DESCRIPTION r |}
  else if String.eqb c "CUST_CODE" then
    Some {| ORD_NUM := ORD_NUM r; ORD_AMOUNT := ORD_AMOUNT r;
            ADVANCE_AMOUNT := ADVANCE_AMOUNT r; ORD_DATE := ORD_DATE r;
            CUST_CODE := v; AGENT_CODE := AGENT_CODE r;
            ORD_DESCRIPTION := ORD_DESCRIPTION r |}
  else if String.eqb c "AGENT_CODE" then
    Some {| ORD_NUM := ORD_NUM r; ORD_AMOUNT := ORD_AMOUNT r;
            ADVANCE_AMOUNT := ADVANCE_AMOUNT r; ORD_DATE := ORD_DATE r;
            CUST_CODE := CUST_CODE r; AGENT_CODE := v;
            ORD_DESCRIPTION := ORD_DESCRIPTION r |}
  else if String.eqb c "ORD_DESCRIPTION" then
    Some {| ORD_NUM := ORD_NUM r; ORD_AMOUNT := ORD_AMOUNT r;
            ADVANCE_AMOUNT := ADVANCE_AMOUNT r; ORD_DATE := ORD_DATE r;
            CUST_CODE := CUST_CODE r; AGENT_CODE := AGENT_CODE r;
            ORD_DESCRIPTION := v |}
  else None.

(** The assignments of a [SET] clause, left to right. *)
Fixpoint set_columns (cs : list string) (vs : list jsval) (r : order)
  : option order :=
  match cs, vs with
  | [], _ => Some r
  | c :: cs', v :: vs' =>
      match set_column c v r with
      | Some r' => set_columns cs' vs' r'
      | None => None
      end
  | _ :: _, [] => None
  end.

(** *** Reading back the text of a dynamic update *)

Fixpoint strip_prefix (p s : string) : option string :=
  match p, s with
  | EmptyString, _ => Some s
  | String a p', String b s' =>
      if Ascii.eqb a b then strip_prefix p' s' else None
  | String _ _, EmptyString => None
  end.

Fixpoint strip_suffix (suf s : string) : option string :=
  if String.eqb s suf then Some EmptyString
  else match s with
       | String c s' =>
           match strip_suffix suf s' with
           | Some r => Some (String c r)
           | None => None
           end
       | EmptyString => None
       end.

Definition cons_head (c : ascii) (l : list string) : list string :=
  match l with
  | h :: t => String c h :: t
  | [] => [String c EmptyString]
  end.

(** [s.split(", ")] *)
Fixpoint split_comma (s : string) : list string :=
  match s with
  | EmptyString => [EmptyString]
  | String c s' =>
      match s' with
      | String d s'' =>
          if Ascii.eqb c "," && Ascii.eqb d " "
          then EmptyString :: split_comma s''
          else cons_head c (split_comma s')
      | EmptyString => [String c EmptyString]
      end
  end.

Fixpoint all_some {A : Type} (l : list (option A)) : option (list A) :=
  match l with
  | [] => Some []
  | Some a :: l' =>
      match all_some l' with
      | Some r => Some (a :: r)
      | None => None
      end
  | None :: _ => None
  end.

Definition update_head : string := "UPDATE orders SET ".
Definition update_tail : string := " WHERE ORD_NUM=?".

(** The columns a statement [UPDATE orders SET c1=?, ..., cn=? WHERE
    ORD_NUM=?] assigns; [None] when the text has another shape, an empty
    [SET] clause included. *)
Definition set_clause_columns (sql : string) : option (list string) :=
  match strip_prefix update_head sql with
  | Some r =>
      match strip_suffix update_tail r with
      | Some clause => all_some (map (strip_suffix "=?") (split_comma clause))
      | None => None
      end
  | None => None
  end.

Definition apply_where (k : Z) (f : order -> option order) (t : list order)
  : option (list order) :=
  all_some (map (fun r => if has_key k r then f r else Some r) t).

Definition affected (k : Z) (t : list order) : nat :=
  List.length (filter (has_key k) t).

Definition syntax_error : string := "You have an error in your SQL syntax".

(** The answer of the engine to one statement on table [t]: the result and
    the table after it, or the error it raises.  A key that is not an
    integer text is refused, as is a second row under one key.  A write
    reports the rows its [WHERE] matched. *)
Definition engine (sql : string) (values : list jsval) (t : list order)
  : outcome (query_result * list order) :=
  if String.eqb sql sql_select_max then
    Returned (Rows [max_ord_num t], t)
  else if String.eqb sql sql_insert then
    match values with
    | [n; a; b; c; d; e; f] =>
        match sql_int n with
        | Some k =>
            if existsb (has_key k) t then Thrown "Duplicate entry for key PRIMARY"
            else Returned (OkPacket 1,
                   (t ++ [{| ORD_NUM := k; ORD_AMOUNT := a; ADVANCE_AMOUNT := b;
                             ORD_DATE := c; CUST_CODE := d; AGENT_CODE := e;
                             ORD_DESCRIPTION := f |}])%list)
        | None => Thrown "Incorrect integer value"
        end
    | _ => Thrown "Parameter count mismatch"
    end
  else if String.eqb sql sql_update then
    match values with
    | [a; b; c; d; e; f; n] =>
        match sql_int n with
        | Some k =>
            Returned (OkPacket (affected k t),
              map (fun r =>
                     if has_key k r
                     then {| ORD_NUM := ORD_NUM r; ORD_AMOUNT := a;
                             ADVANCE_AMOUNT := b; ORD_DATE := c; CUST_CODE := d;
                             AGENT_CODE := e; ORD_DESCRIPTION := f |}
                     else r) t)
        | None => Thrown "Truncated incorrect DOUBLE value"
        end
    | _ => Thrown "Parameter count mismatch"
    end
  else if String.eqb sql sql_delete then
    match values with
    | [n] =>
        match sql_int n with
        | Some k =>
            Returned (OkPacket (affected k t),
                      filter (fun r => negb (has_key k r)) t)
        | None => Thrown "Truncated incorrect DOUBLE value"
        end
    | _ => Thrown "Parameter count mismatch"
    end
  else
    match set_clause_columns sql with
    | Some cs =>
        if (List.length values =? S (List.length cs))%nat then
          match sql_int (last values JNull) with
          | Some k =>
              match apply_where k (set_columns cs values) t with
              | Some t' =>
                  if distinct_keys t'
                  then Returned (OkPacket (affected k t), t')
                  else Thrown "Duplicate entry for key PRIMARY"
              | None => Thrown "Unknown column or incorrect value"
              end
          | None => Thrown "Truncated incorrect DOUBLE value"
          end
        else Thrown "Parameter count mismatch"
    | None => Thrown syntax_error
    end.

(** *** The pool *)

Definition log (ev : db_event) (w : world) : world :=
  {| orders := orders w; faults := faults w; trace := trace w ++ [ev] |}.

(** The next planned failure, if any, is used up. *)
Definition next_fault (w : world) : option string * world :=
  match faults w with
  | [] => (None, w)
  | f :: fs => (f, {| orders := orders w; faults := fs; trace := trace w |})
  end.

(** [await pool.getConnection()] *)
Definition getConnection : io unit :=
  fun w =>
    match next_fault (log GetConnection w) with
    | (Some m, w') => (Thrown m, w')
    | (None, w') => (Returned tt, w')
    end.

(** [await conn.query(sql, values)]: the statement is logged; then either
    the planned failure is raised, or the engine answers. *)
Definition query (sql : string) (values : list jsval) : io query_result :=
  fun w =>
    match next_fault (log (Query sql values) w) with
    | (Some m, w') => (Thrown m, w')
    | (None, w') =>
        match engine sql values (orders w') with
        | Returned (r, t') =>
            (Returned r,
             {| orders := t'; faults := faults w'; trace := trace w' |})
        | Thrown m => (Thrown m, w')
        end
    end.

(** [conn.release()] *)
Definition release (w : world) : world := log Release w.

End Store.
Import Store.

Notation "x <- c ;; k" := (Store.bind c (fun x => k))
  (at level 61, c at next level, right associativity).

(* ------------------------------------------------------------------ *)
(** ** Requests and responses *)

(** [req.params] and [req.body] (a JSON object). *)
Record request : Type := {
  params : obj;
  body : obj
}.

(** The request the router hands to a handler of [/orders/:ORD_NUM]. *)
Definition keyed_request (ORD_NUM : string) (b : obj) : request :=
  {| params := [("ORD_NUM", JStr ORD_NUM)]; body := b |}.

(** The request the router hands to the handler of [/orders]. *)
Definition plain_request (b : obj) : request :=
  {| params := []; body := b |}.

(** The JSON bodies the handlers send. *)
Inductive reply : Type :=
| ErrorsReply (errors : list verror)                  (* { errors } *)
| ErrorReply (error : string)                         (* { error } *)
| MessageReply (message : string)                     (* { message } *)
| OrderReply (message : string) (ORD_NUM : option jsval). (* { message, ORD_NUM } *)

Record response : Type := {
  status : nat;
  json : reply
}.

Definition respond (code : nat) (r : reply) : response :=
  {| status := code; json := r |}.

(** A bound parameter: the driver sends [undefined] as [NULL]. *)
Definition bound (v : option jsval) : jsval :=
  match v with
  | Some x => x
  | None => JNull
  end.

(** [result[0].maxNum], a column value that the driver hands over as a
    Number; reading it off anything but a row throws. *)
Definition first_maxNum (result : query_result) : io (option Z) :=
  match result with
  | Rows (m :: _) => ret (option_map to_double m)
  | _ => throw "Cannot read properties of undefined (reading 'maxNum')"
  end.

(** [result.affectedRows === 0] *)
Definition no_row_affected (result : query_result) : bool :=
  match result with
  | OkPacket 0 => true
  | _ => false
  end.

(** The frame every handler puts around its statements:
    [try { conn = await pool.getConnection(); ... }
     catch (err) { res.status(500).json({ error: err.message }) }
     finally { if (conn) conn.release() }]. *)
Definition with_connection (work : io response) (w : world)
  : response * world :=
  match getConnection w with
  | (Thrown m, w1) => (respond 500 (ErrorReply m), w1)
  | (Returned _, w1) =>
      match work w1 with
      | (Returned r, w2) => (r, release w2)
      | (Thrown m, w2) => (respond 500 (ErrorReply m), release w2)
      end
  end.

(** The fragment of a [SET] clause for one key of the body. *)
Definition set_fragment (key : string) : string := key ++ "=?".

(** [`UPDATE orders SET ${updates.join(", ")} WHERE ORD_NUM=?`] *)
Definition update_text (updates : list string) : string :=
  update_head ++ String.concat ", " updates ++ update_tail.

(* ------------------------------------------------------------------ *)
(** ** The listing routes *)

(** The JSON bodies of [GET /orders], [GET /customers] and
    [GET /students]: [{ total, <key>: rows }] or [{ error }]. *)
Inductive listing (A : Type) : Type :=
| Listing (key : string) (total : nat) (rows : list A)
| ListingError (error : string).
Arguments Listing {A} key total rows.
Arguments ListingError {A} error.

Record listing_response (A : Type) : Type := {
  list_status : nat;
  list_json : listing A
}.
Arguments list_status {A} _.
Arguments list_json {A} _.

(** [await conn.query("SELECT * FROM <table> LIMIT 10")] against a table
    holding [table]: the engine hands back its first ten rows at most. *)
Definition query_rows {A : Type} (sql : string) (table : list A)
  : io (list A) :=
  fun w =>
    match next_fault (log (Query sql []) w) with
    | (Some m, w') => (Thrown m, w')
    | (None, w') => (Returned (firstn 10 table), w')
    end.

(** The handler the three listing routes share, statement and key apart:
    [rows = await conn.query(sql);
     res.status(200).json({ total: rows.length, <key>: rows })]
    inside the frame of every handler. *)
Definition list_rows {A : Type} (key sql : string) (table : list A)
           (w : world) : listing_response A * world :=
  match getConnection w with
  | (Thrown m, w1) =>
      ({| list_status := 500; list_json := ListingError m |}, w1)
  | (Returned _, w1) =>
      match query_rows sql table w1 with
      | (Returned rows, w2) =>
          ({| list_status := 200;
              list_json := Listing key (List.length rows) rows |},
           release w2)
      | (Thrown m, w2) =>
          ({| list_status := 500; list_json := ListingError m |}, release w2)
      end
  end.

(** [GET /orders] *)
Definition get_orders (w : world) : listing_response order * world :=
  list_rows "orders" "SELECT * FROM orders LIMIT 10" (orders w) w.

(** [GET /customers]; the rows of [customer] come from the store. *)
Definition get_customers (customer : list obj) (w : world)
  : listing_response obj * world :=
  list_rows "customers" "SELECT * FROM customer LIMIT 10" customer w.

(** [GET /students]; the rows of [student] come from the store. *)
Definition get_students (student : list obj) (w : world)
  : listing_response obj * world :=
  list_rows "students" "SELECT * FROM student LIMIT 10" student w.

Section Server.

(** validator.js [isDate] and [isISO8601], default options. *)
Variable validator_isDate : string -> bool.
Variable validator_isISO8601 : string -> bool.

(** *** Running the chains *)

(** A standard validator sees the field as text, [isString] as it is. *)
Definition holds (v : validator) (x : option jsval) : bool :=
  match v with
  | IsInt => Validator.isInt (toString x)
  | IsFloat_min0 => Validator.isFloat_min0 (toString x)
  | IsDecimal => Validator.isDecimal (toString x)
  | IsDate => validator_isDate (toString x)
  | IsISO8601 => validator_isISO8601 (toString x)
  | IsEmpty => Validator.isEmpty (toString x)
  | IsLength_min n => Validator.isLength_min n (toString x)
  | IsString => is_string x
  end.

Definition sanitize (s : sanitizer) (x : option jsval) : jsval :=
  match s with
  | Trim => JStr (Validator.trim (toString x))
  | Escape => JStr (Validator.escape (toString x))
  end.

Definition select (l : location) (p : string) (req : request) : option jsval :=
  match l with
  | Body => get p (body req)
  | Params => get p (params req)
  end.

Definition assign (l : location) (p : string) (v : jsval) (req : request)
  : request :=
  match l with
  | Body => {| params := params req; body := set p v (body req) |}
  | Params => {| params := set p v (params req); body := body req |}
  end.

(** After a stack entry the value goes back to the request when it is not
    the one the request holds ([reqValue !== instance.value]). *)
Definition write_back (l : location) (p : string) (v : jsval) (req : request)
  : request :=
  if strict_eq_opt (select l p req) (Some v) then req else assign l p v req.

(** The request, the value of the field as the chain holds it, and the
    errors collected so far. *)
Definition run_state : Type := request * option jsval * list verror.

(** One stack entry.  An optional chain skips an [undefined] field; a
    failed validation adds its error and the chain goes on; a sanitizer
    replaces the value and writes it to the request when it differs. *)
Definition run_item (c : chain) (st : run_state) (it : item) : run_state :=
  let '(req, x, errs) := st in
  match c_optional c, x with
  | true, None => st
  | _, _ =>
      match it with
      | Validation v negated m =>
          if Bool.eqb (holds v x) negated
          then (req, x,
                (errs ++ [{| location_ := c_location c; path := c_path c;
                             msg := m; value := x |}])%list)
          else st
      | Sanitization s =>
          let x' := sanitize s x in
          (write_back (c_location c) (c_path c) x' req, Some x', errs)
      end
  end.

Definition run_chain (st : request * list verror) (c : chain)
  : request * list verror :=
  let (req, errs) := st in
  let '(req', _, errs') :=
    fold_left (run_item c) (c_stack c)
              (req, select (c_location c) (c_path c) req, errs) in
  (req', errs').

(** The middleware array of a route: the request as the handler receives
    it and [validationResult(req).array()]. *)
Definition run_chains (cs : list chain) (req : request)
  : request * list verror :=
  fold_left run_chain cs (req, []).

(** [!errors.isEmpty()] *)
Definition any {A : Type} (l : list A) : bool :=
  match l with
  | [] => false
  | _ :: _ => true
  end.

(** *** POST /orders *)

Definition post_orders_rules : list chain :=
  [ Chain.body "ORD_AMOUNT" |> isFloat_min0
      |> withMessage "ORD_AMOUNT must be a positive number";
    Chain.body "ADVANCE_AMOUNT" |> isFloat_min0
      |> withMessage "ADVANCE_AMOUNT must be a positive number";
    Chain.body "ORD_DATE" |> isDate |> withMessage "ORD_DATE must be a valid date";
    Chain.body "CUST_CODE" |> notEmpty |> withMessage "CUST_CODE is required"
      |> Chain.trim;
    Chain.body "AGENT_CODE" |> notEmpty |> withMessage "AGENT_CODE is required"
      |> Chain.trim;
    Chain.body "ORD_DESCRIPTION" |> notEmpty
      |> withMessage "ORD_DESCRIPTION is required" |> Chain.trim ].

Definition post_orders (req0 : request) : world -> response * world :=
  let (req, errors) := run_chains post_orders_rules req0 in
  if any errors then fun w => (respond 400 (ErrorsReply errors), w)
  else
    with_connection (
      (* Generate next ORD_NUM *)
      result <- query sql_select_max [] ;;
      maxNum <- first_maxNum result ;;
      let newOrderNum := js_add (or_zero maxNum) 1 in
      (* Insert new order *)
      _ <- query sql_insert
             [ JNum newOrderNum;
               bound (get "ORD_AMOUNT" (body req));
               bound (get "ADVANCE_AMOUNT" (body req));
               bound (get "ORD_DATE" (body req));
               bound (get "CUST_CODE" (body req));
               bound (get "AGENT_CODE" (body req));
               bound (get "ORD_DESCRIPTION" (body req)) ] ;;
      ret (respond 201
             (OrderReply "Order created successfully" (Some (JNum newOrderNum))))).

(** *** PUT /orders/:ORD_NUM *)

Definition put_orders_rules : list chain :=
  [ param "ORD_NUM" |> isInt;
    Chain.body "ORD_AMOUNT" |> isDecimal;
    Chain.body "ADVANCE_AMOUNT" |> isDecimal;
    Chain.body "ORD_DATE" |> isISO8601;
    Chain.body "CUST_CODE" |> isString |> Chain.trim |> Chain.escape;
    Chain.body "AGENT_CODE" |> isString |> Chain.trim |> Chain.escape;
    Chain.body "ORD_DESCRIPTION" |> isString |> Chain.trim |> Chain.escape ].

Definition put_orders (req0 : request) : world -> response * world :=
  let (req, errors) := run_chains put_orders_rules req0 in
  if any errors then fun w => (respond 400 (ErrorsReply errors), w)
  else
    let ORD_NUM := get "ORD_NUM" (params req) in
    with_connection (
      result <- query sql_update
                  [ bound (get "ORD_AMOUNT" (body req));
                    bound (get "ADVANCE_AMOUNT" (body req));
                    bound (get "ORD_DATE" (body req));
                    bound (get "CUST_CODE" (body req));
                    bound (get "AGENT_CODE" (body req));
                    bound (get "ORD_DESCRIPTION" (body req));
                    bound ORD_NUM ] ;;
      if no_row_affected result
      then ret (respond 404 (MessageReply "Order not found"))
      else ret (respond 200 (OrderReply "Order updated" ORD_NUM))).

(** *** PATCH /orders/:ORD_NUM *)

Definition patch_orders_rules : list chain :=
  [ param "ORD_NUM" |> isInt |> withMessage "ORD_NUM must be an integer";
    Chain.body "ORD_AMOUNT" |> optional |> isFloat_min0;
    Chain.body "ADVANCE_AMOUNT" |> optional |> isFloat_min0;
    Chain.body "ORD_DATE" |> optional |> isDate;
    Chain.body "CUST_CODE" |> optional |> isLength_min 1;
    Chain.body "AGENT_CODE" |> optional |> isLength_min 1;
    Chain.body "ORD_DESCRIPTION" |> optional |> Chain.trim ].

Definition patch_orders (req0 : request) : world -> response * world :=
  let (req, errors) := run_chains patch_orders_rules req0 in
  if any errors then fun w => (respond 400 (ErrorsReply errors), w)
  else
    (* for (const key in req.body) *)
    let updates := map set_fragment (keys (body req)) in
    let values :=
      (map (fun key => bound (get key (body req))) (keys (body req))
         ++ [bound (get "ORD_NUM" (params req))])%list in
    with_connection (
      result <- query (update_text updates) values ;;
      if no_row_affected result
      then ret (respond 404 (MessageReply "Order not found"))
      else ret (respond 200 (MessageReply "Order partially updated"))).

(** *** DELETE /orders/:ORD_NUM *)

Definition delete_orders_rules : list chain :=
  [ param "ORD_NUM" |> isInt ].

(** The chain runs as middleware, but the handler never reads
    [validationResult(req)]. *)
Definition delete_orders (req0 : request) : world -> response * world :=
  let (req, _) := run_chains delete_orders_rules req0 in
  let ORD_NUM := get "ORD_NUM" (params req) in
  with_connection (
    result <- query sql_delete [bound ORD_NUM] ;;
    if no_row_affected result
    then ret (respond 404 (MessageReply "Order not found"))
    else ret (respond 200 (OrderReply "Order deleted" ORD_NUM))).


(** *** The violations of a request, constraint by constraint

    What the validation contract promises, written from the constraints of
    each route rather than from the chain interpreter: one entry for every
    constraint the incoming request violates, in the order the route
    declares them. *)

Definition failure (l : location) (p m : string) (req : request) : verror :=
  {| location_ := l; path := p; msg := m; value := select l p req |}.

(** No entry when the constraint holds, one entry when it does not. *)
Definition report (ok : bool) (e : verror) : list verror :=
  if ok then [] else [e].

(** The same, for a field that may be left out. *)
Definition report_present (x : option jsval) (ok : bool) (e : verror)
  : list verror :=
  match x with
  | None => []
  | Some _ => report ok e
  end.

Definition text_of (p : string) (req : request) : string :=
  toString (get p (body req)).

Definition post_violations (req : request) : list verror :=
  (report (Validator.isFloat_min0 (text_of "ORD_AMOUNT" req))
     (failure Body "ORD_AMOUNT" "ORD_AMOUNT must be a positive number" req)
   ++ report (Validator.isFloat_min0 (text_of "ADVANCE_AMOUNT" req))
     (failure Body "ADVANCE_AMOUNT" "ADVANCE_AMOUNT must be a positive number" req)
   ++ report (validator_isDate (text_of "ORD_DATE" req))
     (failure Body "ORD_DATE" "ORD_DATE must be a valid date" req)
   ++ report (negb (Validator.isEmpty (text_of "CUST_CODE" req)))
     (failure Body "CUST_CODE" "CUST_CODE is required" req)
   ++ report (negb (Validator.isEmpty (text_of "AGENT_CODE" req)))
     (failure Body "AGENT_CODE" "AGENT_CODE is required" req)
   ++ report (negb (Validator.isEmpty (text_of "ORD_DESCRIPTION" req)))
     (failure Body "ORD_DESCRIPTION" "ORD_DESCRIPTION is required" req))%list.

Definition put_violations (req : request) : list verror :=
  (report (Validator.isInt (toString (get "ORD_NUM" (params req))))
     (failure Params "ORD_NUM" "Invalid value" req)
   ++ report (Validator.isDecimal (text_of "ORD_AMOUNT" req))
     (failure Body "ORD_AMOUNT" "Invalid value" req)
   ++ report (Validator.isDecimal (text_of "ADVANCE_AMOUNT" req))
     (failure Body "ADVANCE_AMOUNT" "Invalid value" req)
   ++ report (validator_isISO8601 (text_of "ORD_DATE" req))
     (failure Body "ORD_DATE" "Invalid value" req)
   ++ report (is_string (get "CUST_CODE" (body req)))
     (failure Body "CUST_CODE" "Invalid value" req)
   ++ report (is_string (get "AGENT_CODE" (body req)))
     (failure Body "AGENT_CODE" "Invalid value" req)
   ++ report (is_string (get "ORD_DESCRIPTION" (body req)))
     (failure Body "ORD_DESCRIPTION" "Invalid value" req))%list.

Definition patch_violations (req : request) : list verror :=
  (report (Validator.isInt (toString (get "ORD_NUM" (params req))))
     (failure Params "ORD_NUM" "ORD_NUM must be an integer" req)
   ++ report_present (get "ORD_AMOUNT" (body req))
     (Validator.isFloat_min0 (text_of "ORD_AMOUNT" req))
     (failure Body "ORD_AMOUNT" "Invalid value" req)
   ++ report_present (get "ADVANCE_AMOUNT" (body req))
     (Validator.isFloat_min0 (text_of "ADVANCE_AMOUNT" req))
     (failure Body "ADVANCE_AMOUNT" "Invalid value" req)
   ++ report_present (get "ORD_DATE" (body req))
     (validator_isDate (text_of "ORD_DATE" req))
     (failure Body "ORD_DATE" "Invalid value" req)
   ++ report_present (get "CUST_CODE" (body req))
     (Validator.isLength_min 1 (text_of "CUST_CODE" req))
     (failure Body "CUST_CODE" "Invalid value" req)
   ++ report_present (get "AGENT_CODE" (body req))
     (Validator.isLength_min 1 (text_of "AGENT_CODE" req))
     (failure Body "AGENT_CODE" "Invalid value" req))%list.

(** The body a PATCH handler reads: the description, when present, has
    been trimmed in place. *)
Definition patch_body (b : obj) : obj :=
  match get "ORD_DESCRIPTION" b with
  | Some v => set "ORD_DESCRIPTION" (JStr (Validator.trim (toString (Some v)))) b
  | None => b
  end.

(** No failure is planned for the next [n] calls to the pool. *)
Fixpoint quiet (n : nat) (fs : list (option string)) : bool :=
  match n, fs with
  | O, _ => true
  | S _, [] => true
  | S n', None :: fs' => quiet n' fs'
  | S _, Some _ :: _ => false
  end.

(** The plan of failures once [n] calls have been made. *)
Definition after_calls (n : nat) (w : world) : list (option string) :=
  skipn n (faults w).

(** [MAX(ORD_NUM)] with the empty table counted as 0. *)
Definition max_or_zero (t : list order) : Z :=
  match max_ord_num t with
  | Some m => m
  | None => 0%Z
  end.

(** The key [POST /orders] computes on table [t]:
    [(result[0].maxNum || 0) + 1], in Numbers. *)
Definition next_ord_num (t : list order) : Z :=
  js_add (or_zero (option_map to_double (max_ord_num t))) 1.

(** The keys of [t] lie where the addition of 1 is exact. *)
Definition exact_keys (t : list order) : Prop :=
  (Z.abs (max_or_zero t) < 9007199254740992)%Z.


(** The row [POST /orders] inserts under key [k] for the request [req]
    as its handler receives it. *)
Definition post_row (k : Z) (req : request) : order :=
  {| ORD_NUM := k;
     ORD_AMOUNT := bound (get "ORD_AMOUNT" (body req));
     ADVANCE_AMOUNT := bound (get "ADVANCE_AMOUNT" (body req));
     ORD_DATE := bound (get "ORD_DATE" (body req));
     CUST_CODE := bound (get "CUST_CODE" (body req));
     AGENT_CODE := bound (get "AGENT_CODE" (body req));
     ORD_DESCRIPTION := bound (get "ORD_DESCRIPTION" (body req)) |}.

(** The values [POST /orders] binds to its insert. *)
Definition post_values (k : Z) (req : request) : list jsval :=
  [ JNum k;
    bound (get "ORD_AMOUNT" (body req));
    bound (get "ADVANCE_AMOUNT" (body req));
    bound (get "ORD_DATE" (body req));
    bound (get "CUST_CODE" (body req));
    bound (get "AGENT_CODE" (body req));
    bound (get "ORD_DESCRIPTION" (body req)) ].

(** A key without a comma: the text of a statement built from such keys
    can be read back key by key. *)
Fixpoint comma_free (s : string) : bool :=
  match s with
  | EmptyString => true
  | String c s' => negb (Ascii.eqb c ",") && comma_free s'
  end.

(** The allow-list reading of the PATCH builder: whatever statement a
    PATCH sends, the columns of its [SET] clause are columns of [orders]. *)
Definition patch_columns_allow_listed : Prop :=
  forall (ORD_NUM : string) (b : obj) (w : world) (sql : string)
         (vs : list jsval) (cols : list string) (c : string),
    In (Query sql vs) (trace (snd (patch_orders (keyed_request ORD_NUM b) w))) ->
    set_clause_columns sql = Some cols ->
    In c cols ->
    In c column_names.

(** *** What a request makes of the pool *)

(** A computation only adds statements to the log, each of them
    satisfying [P]; with [some] set it adds one at least. *)
Definition adds {A : Type} (some : bool) (P : db_event -> Prop) (c : io A)
  : Prop :=
  forall w, exists qs,
    trace (snd (c w)) = (trace w ++ qs)%list
    /\ Forall P qs
    /\ (some = true -> qs <> []).

(** A computation that returns a response returns one satisfying [Q]. *)
Definition answers (Q : response -> Prop) (c : io response) : Prop :=
  forall w,
    match fst (c w) with
    | Returned r => Q r
    | Thrown _ => True
    end.

(** The event is a statement whose text is one of those allowed. *)
Definition sends (allowed : string -> Prop) (ev : db_event) : Prop :=
  exists sql vs, ev = Query sql vs /\ allowed sql.

(** The three ways a request can go through the pool.  It is rejected
    before anything is asked of the pool; or the pool refuses the
    connection, nothing is sent and nothing is released; or the connection
    is granted, statements are sent, one at least and each with an allowed
    text, and the connection is released, once and last. *)
Definition session (allowed : string -> Prop) (w : world)
           (r : response * world) : Prop :=
  (status (fst r) = 400 /\ snd r = w)
  \/ (exists m fs,
        faults w = Some m :: fs
        /\ fst r = respond 500 (ErrorReply m)
        /\ snd r = {| orders := orders w; faults := fs;
                      trace := (trace w ++ [GetConnection])%list |})
  \/ (quiet 1 (faults w) = true
      /\ exists qs,
           qs <> [] /\ Forall (sends allowed) qs
           /\ trace (snd r)
              = (trace w ++ GetConnection :: qs ++ [Release])%list).

(** The text of a PATCH: the fixed head and tail around some fragments. *)
Definition dynamic_update (sql : string) : Prop :=
  exists updates, sql = update_text updates.

(** The field [p] of a PUT as it is bound: trimmed, then escaped. *)
Definition put_text (p : string) (b : obj) : jsval :=
  JStr (Validator.escape (Validator.trim (toString (get p b)))).

(** The field [p] of a POST as it is bound: trimmed. *)
Definition post_text (p : string) (b : obj) : jsval :=
  JStr (Validator.trim (toString (get p b))).

(** The row a PUT leaves in place of [r]. *)
Definition put_row (b : obj) (r : order) : order :=
  {| ORD_NUM := ORD_NUM r;
     ORD_AMOUNT := bound (get "ORD_AMOUNT" b);
     ADVANCE_AMOUNT := bound (get "ADVANCE_AMOUNT" b);
     ORD_DATE := bound (get "ORD_DATE" b);
     CUST_CODE := put_text "CUST_CODE" b;
     AGENT_CODE := put_text "AGENT_CODE" b;
     ORD_DESCRIPTION := put_text "ORD_DESCRIPTION" b |}.

(** The rows kept by [DELETE ... WHERE ORD_NUM = k]. *)
Definition others (k : Z) (t : list order) : list order :=
  filter (fun r => negb (has_key k r)) t.

(** One of the eight characters [escape] rewrites. *)
Definition html_sensitive (c : ascii) : bool :=
  Ascii.eqb c "&" || Ascii.eqb c dquote || Ascii.eqb c "'" || Ascii.eqb c "<"
  || Ascii.eqb c ">" || Ascii.eqb c "/" || Ascii.eqb c "\" || Ascii.eqb c "`".

(** A text without any of them. *)
Fixpoint html_free (s : string) : bool :=
  match s with
  | EmptyString => true
  | String c s' => negb (html_sensitive c) && html_free s'
  end.

(** *** Sample requests *)

Definition scenario_A_body : obj :=
  [ ("ORD_AMOUNT", JNum 5000); ("ADVANCE_AMOUNT", JNum 1000);
    ("ORD_DATE", JStr "2025-09-28"); ("CUST_CODE", JStr "C00001");
    ("AGENT_CODE", JStr "A003"); ("ORD_DESCRIPTION", JStr "New order") ].

Definition empty_world : world :=
  {| orders := []; faults := []; trace := [] |}.

Definition order_1 : order :=
  {| ORD_NUM := 1; ORD_AMOUNT := JNum 5000; ADVANCE_AMOUNT := JNum 1000;
     ORD_DATE := JStr "2025-09-28"; CUST_CODE := JStr "C00001";
     AGENT_CODE := JStr "A003"; ORD_DESCRIPTION := JStr "New order" |}.

Definition world_1 : world :=
  {| orders := [order_1]; faults := []; trace := [] |}.

Definition order_7 : order :=
  {| ORD_NUM := 7; ORD_AMOUNT := JNum 250; ADVANCE_AMOUNT := JNum 0;
     ORD_DATE := JStr "2025-10-02"; CUST_CODE := JStr "C00004";
     AGENT_CODE := JStr "A001"; ORD_DESCRIPTION := JStr "Repeat order" |}.

Definition world_7 : world :=
  {| orders := [order_7; order_1]; faults := []; trace := [] |}.



Definition scenario_B_body : obj := [("ORD_AMOUNT", JNum 6000)].

Definition three_field_body : obj :=
  [ ("ORD_DESCRIPTION", JStr "  rush  "); ("ORD_AMOUNT", JNum 6000);
    ("CUST_CODE", JStr "C00002") ].

Definition mixed_keys_body : obj :=
  [ ("ORD_AMOUNT", JNum 6000); ("FOO", JNum 1); ("CUST_CODE", JStr "C00002") ].

Definition negative_amount_body : obj :=
  [ ("ORD_AMOUNT", JNum (-5)); ("ADVANCE_AMOUNT", JNum 1000);
    ("ORD_DATE", JStr "2025-09-28"); ("CUST_CODE", JStr "C00001");
    ("AGENT_CODE", JStr "A003"); ("ORD_DESCRIPTION", JStr "New order") ].

Definition no_description_body : obj :=
  [ ("ORD_AMOUNT", JNum 5000); ("ADVANCE_AMOUNT", JNum 1000);
    ("ORD_DATE", JStr "2025-09-28"); ("CUST_CODE", JStr "C00001");
    ("AGENT_CODE", JStr "A003") ].

Definition unknown_key_body : obj := [("FOO", JNum 1)].

Definition refusing_world : world :=
  {| orders := [order_1]; faults := [Some "pool timeout"]; trace := [] |}.

Definition failing_statement_world : world :=
  {| orders := [order_1]; faults := [None; Some "Connection lost"];
     trace := [] |}.

Definition failing_insert_world : world :=
  {| orders := [order_1]; faults := [None; None; Some "Connection lost"];
     trace := [] |}.

Definition blank_code_body : obj :=
  [ ("ORD_AMOUNT", JNum 5000); ("ADVANCE_AMOUNT", JNum 1000);
    ("ORD_DATE", JStr "2025-09-28"); ("CUST_CODE", JStr "   ");
    ("AGENT_CODE", JStr " A003"); ("ORD_DESCRIPTION", JStr "New order ") ].

Definition null_amount_body : obj := [("ORD_AMOUNT", JNull)].

(** An amount of [1e21], whose text is ["1e+21"]. *)
Definition exponent_amount_body : obj :=
  [ ("ORD_AMOUNT", JNum 1000000000000000000000); ("ADVANCE_AMOUNT", JNum 1000);
    ("ORD_DATE", JStr "2025-09-28"); ("CUST_CODE", JStr "C00001");
    ("AGENT_CODE", JStr "A003"); ("ORD_DESCRIPTION", JStr "New order") ].

Definition markup_body : obj :=
  [ ("ORD_AMOUNT", JNum 5000); ("ADVANCE_AMOUNT", JNum 1000);
    ("ORD_DATE", JStr "2025-09-28"); ("CUST_CODE", JStr "C00001");
    ("AGENT_CODE", JStr "A003"); ("ORD_DESCRIPTION", JStr "R&D <urgent>") ].

(* ------------------------------------------------------------------ *)
(** ** Objects *)

Lemma get_set_other (k k' : string) (v : jsval) (o : obj) :
  String.eqb k k' = false -> get k (set k' v o) = get k o.
Proof.
  intros Hk. induction o as [|[k0 v0] o IH]; simpl.
  - now rewrite Hk.
  - destruct (String.eqb k' k0) eqn:E; simpl.
    + apply String.eqb_eq in E. subst k0. now rewrite Hk.
    + now rewrite IH.
Qed.

Lemma get_set_same (k : string) (v : jsval) (o : obj) :
  get k (set k v o) = Some v.
Proof.
  induction o as [|[k0 v0] o IH]; simpl.
  - now rewrite String.eqb_refl.
  - destruct (String.eqb k k0) eqn:E; simpl; now rewrite E.
Qed.

Lemma strict_eq_true (a b : jsval) : strict_eq a b = true -> a = b.
Proof.
  destruct a, b; simpl; try discriminate; intros H; try reflexivity.
  - apply Bool.eqb_prop in H. now subst.
  - apply Z.eqb_eq in H. now subst.
  - apply String.eqb_eq in H. now subst.
Qed.

Lemma set_get_same (k : string) (v : jsval) (o : obj) :
  get k o = Some v -> set k v o = o.
Proof.
  induction o as [|[k0 v0] o IH]; simpl; [discriminate|].
  destruct (String.eqb k k0) eqn:E; intros H.
  - now inversion H.
  - now rewrite IH.
Qed.

Lemma keys_set_present (k : string) (v : jsval) (o : obj) :
  get k o <> None -> keys (set k v o) = keys o.
Proof.
  unfold keys. induction o as [|[k0 v0] o IH]; simpl; [congruence|].
  destruct (String.eqb k k0) eqn:E; intros H; simpl; [reflexivity|].
  now rewrite IH.
Qed.

(** ** Chains *)

Lemma select_write_back_other (l l' : location) (p p' : string) (v : jsval)
      (req : request) :
  l <> l' \/ String.eqb p' p = false ->
  select l' p' (write_back l p v req) = select l' p' req.
Proof.
  intros H. unfold write_back.
  destruct (strict_eq_opt (select l p req) (Some v)); [reflexivity|].
  destruct l, l'; simpl; try reflexivity;
    (destruct H as [H|H]; [congruence | now apply get_set_other]).
Qed.

Lemma write_back_body (p : string) (v : jsval) (req : request) :
  params (write_back Body p v req) = params req.
Proof.
  unfold write_back. now destruct (strict_eq_opt _ _).
Qed.

Lemma body_write_back (p : string) (v : jsval) (req : request) :
  body (write_back Body p v req) = set p v (body req) \/
  (get p (body req) = Some v /\ body (write_back Body p v req) = body req).
Proof.
  unfold write_back. simpl.
  destruct (get p (body req)) as [x|] eqn:G; simpl.
  - destruct (strict_eq x v) eqn:E; simpl.
    + right. apply strict_eq_true in E. now subst.
    + now left.
  - now left.
Qed.

Lemma body_write_back_set (p : string) (v : jsval) (req : request) :
  body (write_back Body p v req) = set p v (body req).
Proof.
  destruct (body_write_back p v req) as [H|[G H]]; [exact H|].
  rewrite H. symmetry. now apply set_get_same.
Qed.

(** A chain made of one validation. *)
Lemma run_chain_check (l : location) (p : string) (v : validator)
      (n : bool) (m : string) (req : request) (errs : list verror) :
  run_chain (req, errs)
    {| c_location := l; c_path := p; c_optional := false;
       c_stack := [Validation v n m] |}
  = (req, (errs ++ report (negb (Bool.eqb (holds v (select l p req)) n))
                          (failure l p m req))%list).
Proof.
  unfold run_chain, failure. cbn.
  destruct (Bool.eqb _ n); cbn; [reflexivity | now rewrite app_nil_r].
Qed.

(** One validation, then one sanitizer. *)
Lemma run_chain_check_clean (l : location) (p : string) (v : validator)
      (n : bool) (m : string) (s : sanitizer) (req : request)
      (errs : list verror) :
  run_chain (req, errs)
    {| c_location := l; c_path := p; c_optional := false;
       c_stack := [Validation v n m; Sanitization s] |}
  = (write_back l p (sanitize s (select l p req)) req,
     (errs ++ report (negb (Bool.eqb (holds v (select l p req)) n))
                     (failure l p m req))%list).
Proof.
  unfold run_chain, failure. cbn.
  destruct (Bool.eqb _ n); cbn; [reflexivity | now rewrite app_nil_r].
Qed.

(** One validation, then two sanitizers. *)
Lemma run_chain_check_clean2 (l : location) (p : string) (v : validator)
      (n : bool) (m : string) (s1 s2 : sanitizer) (req : request)
      (errs : list verror) :
  run_chain (req, errs)
    {| c_location := l; c_path := p; c_optional := false;
       c_stack := [Validation v n m; Sanitization s1; Sanitization s2] |}
  = (let x1 := sanitize s1 (select l p req) in
     write_back l p (sanitize s2 (Some x1)) (write_back l p x1 req),
     (errs ++ report (negb (Bool.eqb (holds v (select l p req)) n))
                     (failure l p m req))%list).
Proof.
  unfold run_chain, failure. cbn.
  destruct (Bool.eqb _ n); cbn; [reflexivity | now rewrite app_nil_r].
Qed.

(** An optional chain made of one validation. *)
Lemma run_chain_optional_check (l : location) (p : string) (v : validator)
      (n : bool) (m : string) (req : request) (errs : list verror) :
  run_chain (req, errs)
    {| c_location := l; c_path := p; c_optional := true;
       c_stack := [Validation v n m] |}
  = (req, (errs ++ report_present (select l p req)
                     (negb (Bool.eqb (holds v (select l p req)) n))
                     (failure l p m req))%list).
Proof.
  unfold run_chain, failure, report_present. cbn.
  destruct (select l p req); cbn; [|now rewrite app_nil_r].
  destruct (Bool.eqb _ n); cbn; [reflexivity | now rewrite app_nil_r].
Qed.

(** An optional chain made of one sanitizer. *)
Lemma run_chain_optional_clean (l : location) (p : string) (s : sanitizer)
      (req : request) (errs : list verror) :
  run_chain (req, errs)
    {| c_location := l; c_path := p; c_optional := true;
       c_stack := [Sanitization s] |}
  = (match select l p req with
     | Some x => write_back l p (sanitize s (Some x)) req
     | None => req
     end, errs).
Proof.
  unfold run_chain. cbn. now destruct (select l p req).
Qed.

Lemma eqb_false_negb (b : bool) : negb (Bool.eqb b false) = b.
Proof. now destruct b. Qed.

Lemma eqb_true_negb (b : bool) : negb (Bool.eqb b true) = negb b.
Proof. now destruct b. Qed.

Ltac normal_rules rules :=
  unfold run_chains;
  let r := eval cbv in rules in change rules with r;
  cbn [fold_left].

Ltac run_rules :=
  repeat first
    [ rewrite run_chain_check
    | rewrite run_chain_check_clean
    | rewrite run_chain_check_clean2
    | rewrite run_chain_optional_check
    | rewrite run_chain_optional_clean ].

(** ** What each route's middleware leaves to its handler *)

Ltac settle_lookups :=
  unfold failure;
  repeat rewrite select_write_back_other by (right; reflexivity);
  repeat rewrite eqb_false_negb; repeat rewrite eqb_true_negb;
  repeat rewrite <- app_assoc.

Lemma post_errors (req : request) :
  snd (run_chains post_orders_rules req) = post_violations req.
Proof.
  normal_rules post_orders_rules. run_rules.
  cbn [snd app holds]. settle_lookups. reflexivity.
Qed.

Lemma put_errors (req : request) :
  snd (run_chains put_orders_rules req) = put_violations req.
Proof.
  normal_rules put_orders_rules. run_rules.
  cbn [snd app holds]. settle_lookups. reflexivity.
Qed.

Lemma put_params (req : request) :
  params (fst (run_chains put_orders_rules req)) = params req.
Proof.
  normal_rules put_orders_rules. run_rules.
  cbn [fst]. now rewrite !write_back_body.
Qed.

Lemma patch_errors (req : request) :
  snd (run_chains patch_orders_rules req) = patch_violations req.
Proof.
  normal_rules patch_orders_rules. run_rules.
  cbn [snd app holds]. settle_lookups. reflexivity.
Qed.

Lemma patch_request (req : request) :
  fst (run_chains patch_orders_rules req)
  = {| params := params req; body := patch_body (body req) |}.
Proof.
  normal_rules patch_orders_rules. run_rules.
  cbn [fst select]. unfold patch_body.
  destruct (get "ORD_DESCRIPTION" (body req)) as [x|] eqn:G.
  - pose proof (write_back_body "ORD_DESCRIPTION"
                  (sanitize Trim (Some x)) req) as Hp.
    pose proof (body_write_back_set "ORD_DESCRIPTION"
                  (sanitize Trim (Some x)) req) as Hb.
    destruct (write_back Body "ORD_DESCRIPTION" (sanitize Trim (Some x)) req)
      as [ps bd].
    simpl in Hp, Hb. now subst.
  - now destruct req.
Qed.

Lemma delete_request (req : request) :
  fst (run_chains delete_orders_rules req) = req.
Proof.
  normal_rules delete_orders_rules. run_rules. reflexivity.
Qed.

Lemma any_false {A : Type} (l : list A) : any l = false <-> l = [].
Proof. destruct l; simpl; split; congruence. Qed.

Lemma any_true {A : Type} (l : list A) : any l = true <-> l <> [].
Proof. destruct l; simpl; split; congruence. Qed.

(** ** The engine *)

Lemma or_zero_value (m : option Z) :
  or_zero m = match m with Some n => n | None => 0%Z end.
Proof.
  destruct m as [n|]; simpl; [|reflexivity].
  destruct (Z.eqb_spec n 0); congruence.
Qed.

Lemma max_ord_num_bound (t : list order) (m : Z) :
  max_ord_num t = Some m -> forall r, In r t -> (ORD_NUM r <= m)%Z.
Proof.
  revert m. induction t as [|r0 t IH]; simpl; intros m Hm r Hr; [easy|].
  destruct (max_ord_num t) as [m'|] eqn:E.
  - inversion Hm; subst. destruct Hr as [->|Hr]; [lia|].
    specialize (IH m' eq_refl r Hr). lia.
  - inversion Hm; subst. destruct Hr as [->|Hr]; [lia|].
    destruct t; [easy|]. simpl in E. now destruct (max_ord_num t).
Qed.

Lemma max_ord_num_none (t : list order) : max_ord_num t = None <-> t = [].
Proof.
  destruct t as [|r t]; simpl; [easy|].
  now destruct (max_ord_num t).
Qed.

(** The key the allocator computes is carried by no row. *)
Lemma next_key_fresh (t : list order) :
  existsb (has_key (or_zero (max_ord_num t) + 1)) t = false.
Proof.
  rewrite or_zero_value.
  destruct (existsb _ t) eqn:E; [|reflexivity].
  apply existsb_exists in E. destruct E as [r [Hr Hk]].
  unfold has_key in Hk. apply Z.eqb_eq in Hk.
  destruct (max_ord_num t) as [m|] eqn:M.
  - pose proof (max_ord_num_bound t m M r Hr). lia.
  - apply max_ord_num_none in M. now subst.
Qed.

Lemma engine_select_max (t : list order) :
  engine sql_select_max [] t = Returned (Rows [max_ord_num t], t).
Proof. reflexivity. Qed.

Lemma engine_insert (k : Z) (a b c d e f : jsval) (t : list order) :
  existsb (has_key k) t = false ->
  engine sql_insert [JNum k; a; b; c; d; e; f] t
  = Returned (OkPacket 1,
      (t ++ [{| ORD_NUM := k; ORD_AMOUNT := a; ADVANCE_AMOUNT := b;
                ORD_DATE := c; CUST_CODE := d; AGENT_CODE := e;
                ORD_DESCRIPTION := f |}])%list).
Proof.
  intros H. unfold engine.
  change (String.eqb sql_insert sql_select_max) with false.
  change (String.eqb sql_insert sql_insert) with true.
  cbn [sql_int]. now rewrite H.
Qed.

Lemma engine_update (a b c d e f n : jsval) (t : list order) :
  engine sql_update [a; b; c; d; e; f; n] t
  = match sql_int n with
    | Some k =>
        Returned (OkPacket (affected k t),
          map (fun r =>
                 if has_key k r
                 then {| ORD_NUM := ORD_NUM r; ORD_AMOUNT := a;
                         ADVANCE_AMOUNT := b; ORD_DATE := c; CUST_CODE := d;
                         AGENT_CODE := e; ORD_DESCRIPTION := f |}
                 else r) t)
    | None => Thrown "Truncated incorrect DOUBLE value"
    end.
Proof. reflexivity. Qed.

Lemma engine_delete (n : jsval) (t : list order) :
  engine sql_delete [n] t
  = match sql_int n with
    | Some k =>
        Returned (OkPacket (affected k t),
                  filter (fun r => negb (has_key k r)) t)
    | None => Thrown "Truncated incorrect DOUBLE value"
    end.
Proof. reflexivity. Qed.

Lemma affected_after_delete (k : Z) (t : list order) :
  affected k (filter (fun r => negb (has_key k r)) t) = 0%nat.
Proof.
  unfold affected. induction t as [|r t IH]; simpl; [reflexivity|].
  destruct (has_key k r) eqn:E; simpl; [exact IH|].
  now rewrite E.
Qed.

Lemma affected_present (k : Z) (t : list order) :
  existsb (has_key k) t = true -> affected k t <> 0%nat.
Proof.
  unfold affected. induction t as [|r t IH]; simpl; [discriminate|].
  destruct (has_key k r); simpl; [discriminate | exact IH].
Qed.

Lemma affected_absent (k : Z) (t : list order) :
  existsb (has_key k) t = false -> affected k t = 0%nat.
Proof.
  unfold affected. induction t as [|r t IH]; simpl; [reflexivity|].
  destruct (has_key k r); simpl; [discriminate | exact IH].
Qed.

Lemma delete_twice (k : Z) (t : list order) :
  filter (fun r => negb (has_key k r))
         (filter (fun r => negb (has_key k r)) t)
  = filter (fun r => negb (has_key k r)) t.
Proof.
  induction t as [|r t IH]; simpl; [reflexivity|].
  destruct (has_key k r) eqn:E; simpl; [exact IH|].
  rewrite E. simpl. now rewrite IH.
Qed.

Ltac step_io :=
  cbv [with_connection getConnection Store.bind query next_fault log
       first_maxNum ret throw release faults orders trace].

(** ** POST /orders, path by path *)

Lemma post_orders_rejected (req : request) (w : world) :
  post_violations req <> [] ->
  post_orders req w = (respond 400 (ErrorsReply (post_violations req)), w).
Proof.
  intros H. unfold post_orders.
  pose proof (post_errors req) as E.
  destruct (run_chains post_orders_rules req) as [req' errs].
  simpl in E. subst errs.
  apply any_true in H. now rewrite H.
Qed.

Lemma to_double_exact (n : Z) :
  (Z.abs n <= 9007199254740992)%Z -> to_double n = n.
Proof.
  intros H. unfold to_double, two53.
  apply Z.leb_le in H. now rewrite H.
Qed.

(** Where the addition is exact the allocator computes the maximum plus
    one. *)
Lemma next_ord_num_exact (t : list order) :
  exact_keys t -> next_ord_num t = (max_or_zero t + 1)%Z.
Proof.
  unfold exact_keys, next_ord_num, max_or_zero, js_add. intros H.
  destruct (max_ord_num t) as [m|]; cbn [option_map].
  - rewrite (to_double_exact m) by lia. rewrite or_zero_value.
    apply to_double_exact. lia.
  - reflexivity.
Qed.

Lemma engine_insert_duplicate (k : Z) (a b c d e f : jsval) (t : list order) :
  existsb (has_key k) t = true ->
  engine sql_insert [JNum k; a; b; c; d; e; f] t
  = Thrown "Duplicate entry for key PRIMARY".
Proof.
  intros H. unfold engine.
  change (String.eqb sql_insert sql_select_max) with false.
  change (String.eqb sql_insert sql_insert) with true.
  cbn [sql_int]. now rewrite H.
Qed.

Lemma post_orders_created (req : request) (w : world) :
  post_violations req = [] ->
  quiet 3 (faults w) = true ->
  existsb (has_key (next_ord_num (orders w))) (orders w) = false ->
  let req' := fst (run_chains post_orders_rules req) in
  let k := next_ord_num (orders w) in
  post_orders req w
  = (respond 201 (OrderReply "Order created successfully" (Some (JNum k))),
     {| orders := (orders w ++ [post_row k req'])%list;
        faults := after_calls 3 w;
        trace := (trace w ++ [GetConnection; Query sql_select_max [];
                              Query sql_insert (post_values k req');
                              Release])%list |}).
Proof.
  intros H Q F. unfold post_orders, next_ord_num, after_calls in *.
  pose proof (post_errors req) as E.
  destruct (run_chains post_orders_rules req) as [req' errs].
  simpl in E. subst errs. rewrite H. cbn [any fst].
  destruct w as [t fs tr]. cbn [faults orders trace] in *.
  destruct fs as [|[m|] [|[m1|] [|[m2|] fs]]]; try discriminate Q;
    step_io; rewrite engine_select_max; step_io;
    (rewrite engine_insert by exact F);
    cbn [skipn]; rewrite <- !app_assoc; reflexivity.
Qed.

(** The same where the addition is exact: the key is the maximum plus
    one, and no row carries it. *)
Lemma post_orders_created_exact (req : request) (w : world) :
  post_violations req = [] ->
  quiet 3 (faults w) = true ->
  exact_keys (orders w) ->
  let req' := fst (run_chains post_orders_rules req) in
  let k := (max_or_zero (orders w) + 1)%Z in
  post_orders req w
  = (respond 201 (OrderReply "Order created successfully" (Some (JNum k))),
     {| orders := (orders w ++ [post_row k req'])%list;
        faults := after_calls 3 w;
        trace := (trace w ++ [GetConnection; Query sql_select_max [];
                              Query sql_insert (post_values k req');
                              Release])%list |}).
Proof.
  intros H Q B. cbv zeta.
  rewrite <- (next_ord_num_exact (orders w) B).
  apply (post_orders_created req w H Q).
  rewrite (next_ord_num_exact (orders w) B).
  unfold max_or_zero. rewrite <- or_zero_value. apply next_key_fresh.
Qed.

Lemma post_orders_failed (req : request) (w : world) :
  post_violations req = [] ->
  quiet 3 (faults w) = false ->
  status (fst (post_orders req w)) = 500.
Proof.
  intros H Q. unfold post_orders.
  pose proof (post_errors req) as E.
  destruct (run_chains post_orders_rules req) as [req' errs].
  simpl in E. subst errs. rewrite H. cbn [any].
  destruct w as [t fs tr]. cbn [faults] in Q.
  destruct fs as [|[m|] [|[m1|] [|[m2|] fs]]]; try discriminate Q;
    step_io; try reflexivity;
    rewrite engine_select_max; step_io; reflexivity.
Qed.

(** The key the allocator computes is already a row's: the engine refuses
    the insert. *)
Lemma post_orders_duplicate (req : request) (w : world) :
  post_violations req = [] ->
  existsb (has_key (next_ord_num (orders w))) (orders w) = true ->
  status (fst (post_orders req w)) = 500.
Proof.
  intros H F. unfold post_orders, next_ord_num in *.
  pose proof (post_errors req) as E.
  destruct (run_chains post_orders_rules req) as [req' errs].
  simpl in E. subst errs. rewrite H. cbn [any].
  destruct w as [t fs tr]. cbn [orders] in F.
  destruct fs as [|[m|] [|[m1|] [|[m2|] fs]]];
    step_io; try reflexivity;
    rewrite engine_select_max; step_io; try reflexivity;
    (rewrite engine_insert_duplicate by exact F); reflexivity.
Qed.

(** ** PUT, PATCH and DELETE, path by path *)

Lemma put_orders_rejected (req : request) (w : world) :
  put_violations req <> [] ->
  put_orders req w = (respond 400 (ErrorsReply (put_violations req)), w).
Proof.
  intros H. unfold put_orders.
  pose proof (put_errors req) as E.
  destruct (run_chains put_orders_rules req) as [req' errs].
  simpl in E. subst errs.
  apply any_true in H. now rewrite H.
Qed.

Lemma put_orders_replies (ORD_NUM : string) (b : obj) (w : world) :
  let res := fst (put_orders (keyed_request ORD_NUM b) w) in
  (status res = 400 /\ json res = ErrorsReply (put_violations (keyed_request ORD_NUM b)))
  \/ (status res = 500 /\ exists m, json res = ErrorReply m)
  \/ (status res = 404 /\ json res = MessageReply "Order not found")
  \/ (status res = 200 /\
      json res = OrderReply "Order updated" (Some (JStr ORD_NUM))).
Proof.
  unfold put_orders.
  pose proof (put_errors (keyed_request ORD_NUM b)) as E.
  pose proof (put_params (keyed_request ORD_NUM b)) as P.
  destruct (run_chains put_orders_rules (keyed_request ORD_NUM b))
    as [req' errs].
  cbn [fst snd] in E, P. subst errs.
  destruct (any (put_violations _)); [now left|].
  right. rewrite P. cbn [keyed_request params get String.eqb Ascii.eqb Bool.eqb].
  destruct w as [t fs tr].
  destruct fs as [|[m|] [|[m1|] fs]]; step_io;
    try (left; split; [reflexivity | eexists; reflexivity]);
    rewrite engine_update;
    (destruct (sql_int (bound (Some (JStr ORD_NUM))));
     [|left; split; [reflexivity | eexists; reflexivity]]);
    (destruct (affected z t); cbn;
     [right; left; now split | right; right; now split]).
Qed.

Lemma delete_orders_unfold (ORD_NUM : string) (b : obj) (w : world) :
  delete_orders (keyed_request ORD_NUM b) w
  = with_connection
      (result <- query sql_delete [JStr ORD_NUM] ;;
       if no_row_affected result
       then ret (respond 404 (MessageReply "Order not found"))
       else ret (respond 200 (OrderReply "Order deleted" (Some (JStr ORD_NUM)))))
      w.
Proof.
  unfold delete_orders.
  pose proof (delete_request (keyed_request ORD_NUM b)) as E.
  destruct (run_chains delete_orders_rules (keyed_request ORD_NUM b))
    as [req' errs].
  cbn [fst] in E. subst req'. reflexivity.
Qed.

(** [DELETE] when the pool and the engine raise nothing and the key is an
    integer text. *)
Lemma delete_orders_quiet (ORD_NUM : string) (k : Z) (b : obj) (w : world) :
  int_value ORD_NUM = Some k ->
  quiet 2 (faults w) = true ->
  delete_orders (keyed_request ORD_NUM b) w
  = (if Nat.eqb (affected k (orders w)) 0
     then respond 404 (MessageReply "Order not found")
     else respond 200 (OrderReply "Order deleted" (Some (JStr ORD_NUM))),
     {| orders := filter (fun r => negb (has_key k r)) (orders w);
        faults := after_calls 2 w;
        trace := (trace w ++ [GetConnection; Query sql_delete [JStr ORD_NUM];
                              Release])%list |}).
Proof.
  intros K Q. rewrite delete_orders_unfold. unfold after_calls.
  destruct w as [t fs tr]. cbn [faults orders trace] in *.
  destruct fs as [|[m|] [|[m1|] fs]]; try discriminate Q;
    step_io; rewrite engine_delete; cbn [sql_int]; rewrite K;
    (destruct (affected k t); cbn [Nat.eqb skipn no_row_affected];
     rewrite <- !app_assoc; reflexivity).
Qed.

Lemma delete_orders_failed (ORD_NUM : string) (b : obj) (w : world) :
  quiet 2 (faults w) = false \/ int_value ORD_NUM = None ->
  status (fst (delete_orders (keyed_request ORD_NUM b) w)) = 500.
Proof.
  intros H. rewrite delete_orders_unfold.
  destruct w as [t fs tr]. cbn [faults] in H.
  destruct fs as [|[m|] [|[m1|] fs]]; step_io; try reflexivity;
    rewrite engine_delete; cbn [sql_int];
    (destruct H as [H|H]; [discriminate H | now rewrite H]).
Qed.

Lemma patch_orders_rejected (req : request) (w : world) :
  patch_violations req <> [] ->
  patch_orders req w = (respond 400 (ErrorsReply (patch_violations req)), w).
Proof.
  intros H. unfold patch_orders.
  pose proof (patch_errors req) as E.
  destruct (run_chains patch_orders_rules req) as [req' errs].
  simpl in E. subst errs.
  apply any_true in H. now rewrite H.
Qed.

Lemma patch_orders_unfold (ORD_NUM : string) (b : obj) (w : world) :
  patch_violations (keyed_request ORD_NUM b) = [] ->
  patch_orders (keyed_request ORD_NUM b) w
  = with_connection
      (result <- query (update_text (map set_fragment (keys (patch_body b))))
                   (map (fun key => bound (get key (patch_body b)))
                        (keys (patch_body b)) ++ [JStr ORD_NUM])%list ;;
       if no_row_affected result
       then ret (respond 404 (MessageReply "Order not found"))
       else ret (respond 200 (MessageReply "Order partially updated")))
      w.
Proof.
  intros H. unfold patch_orders.
  pose proof (patch_errors (keyed_request ORD_NUM b)) as E.
  pose proof (patch_request (keyed_request ORD_NUM b)) as P.
  destruct (run_chains patch_orders_rules (keyed_request ORD_NUM b))
    as [req' errs].
  cbn [fst snd] in E, P. subst errs req'. rewrite H.
  reflexivity.
Qed.

Lemma keys_patch_body (b : obj) : keys (patch_body b) = keys b.
Proof.
  unfold patch_body.
  destruct (get "ORD_DESCRIPTION" b) eqn:G; [|reflexivity].
  apply keys_set_present. congruence.
Qed.

(** The events of a PATCH once the connection is granted: the statement is
    sent whatever the engine then answers. *)
Lemma patch_orders_trace (ORD_NUM : string) (b : obj) (w : world) :
  patch_violations (keyed_request ORD_NUM b) = [] ->
  quiet 1 (faults w) = true ->
  trace (snd (patch_orders (keyed_request ORD_NUM b) w))
  = (trace w ++
     [GetConnection;
      Query (update_text (map set_fragment (keys b)))
            (map (fun key => bound (get key (patch_body b))) (keys b)
               ++ [JStr ORD_NUM]);
      Release])%list.
Proof.
  intros H Q. rewrite patch_orders_unfold by exact H.
  rewrite keys_patch_body.
  destruct w as [t fs tr]. cbn [faults trace] in *.
  destruct fs as [|[m|] [|[m1|] fs]]; try discriminate Q; step_io;
    try (cbn [snd trace]; rewrite <- !app_assoc; reflexivity);
    (destruct (engine _ _ t) as [[r t']|m]; [destruct (no_row_affected r)|]);
    cbn [snd trace]; rewrite <- !app_assoc; reflexivity.
Qed.


(** ** The text of a dynamic update, read back *)

Lemma strip_prefix_app (p s : string) : strip_prefix p (p ++ s) = Some s.
Proof.
  induction p as [|c p IH]; simpl; [reflexivity|].
  now rewrite Ascii.eqb_refl.
Qed.

Lemma length_append (s1 s2 : string) :
  String.length (s1 ++ s2) = (String.length s1 + String.length s2)%nat.
Proof. induction s1 as [|c s1 IH]; simpl; [reflexivity | now rewrite IH]. Qed.

Lemma strip_suffix_refl (suf : string) : strip_suffix suf suf = Some EmptyString.
Proof. destruct suf; simpl; [reflexivity | now rewrite Ascii.eqb_refl, String.eqb_refl]. Qed.

Lemma strip_suffix_app (suf s : string) : strip_suffix suf (s ++ suf) = Some s.
Proof.
  induction s as [|c s IH]; [apply strip_suffix_refl|].
  cbn [append strip_suffix]. rewrite IH.
  destruct (String.eqb (String c (s ++ suf)) suf) eqn:E; [|reflexivity].
  apply String.eqb_eq in E. apply (f_equal String.length) in E.
  simpl in E. rewrite length_append in E. lia.
Qed.

Lemma comma_free_append (s1 s2 : string) :
  comma_free (s1 ++ s2) = comma_free s1 && comma_free s2.
Proof.
  induction s1 as [|c s1 IH]; simpl; [reflexivity|].
  rewrite IH. now rewrite andb_assoc.
Qed.

Lemma split_comma_single (f : string) :
  comma_free f = true -> split_comma f = [f].
Proof.
  induction f as [|c f IH]; simpl; [reflexivity|].
  intros H. apply andb_prop in H. destruct H as [Hc Hf].
  destruct f as [|d f]; [reflexivity|].
  rewrite (IH Hf). apply negb_true_iff in Hc. now rewrite Hc.
Qed.

Lemma split_comma_cons (f rest : string) :
  comma_free f = true ->
  split_comma (f ++ ", " ++ rest) = f :: split_comma rest.
Proof.
  induction f as [|c f IH]; intros H; [reflexivity|].
  simpl in H. apply andb_prop in H. destruct H as [Hc Hf].
  apply negb_true_iff in Hc.
  specialize (IH Hf).
  change (String c f ++ ", " ++ rest) with (String c (f ++ ", " ++ rest)).
  remember (f ++ ", " ++ rest) as tl eqn:T.
  destruct tl as [|d tl].
  - destruct f; discriminate T.
  - cbn [split_comma]. rewrite Hc. cbn [andb].
    cbn [split_comma] in IH. rewrite IH. reflexivity.
Qed.

Lemma split_comma_concat (fs : list string) :
  fs <> [] ->
  forallb comma_free fs = true ->
  split_comma (String.concat ", " fs) = fs.
Proof.
  induction fs as [|f fs IH]; [congruence|].
  intros _ H. simpl in H. apply andb_prop in H. destruct H as [Hf Hfs].
  destruct fs as [|g fs].
  - simpl. now apply split_comma_single.
  - change (String.concat ", " (f :: g :: fs))
      with (f ++ ", " ++ String.concat ", " (g :: fs)).
    rewrite split_comma_cons by exact Hf.
    rewrite IH; [reflexivity | congruence | exact Hfs].
Qed.

Lemma fragments_read_back (ks : list string) :
  all_some (map (strip_suffix "=?") (map set_fragment ks)) = Some ks.
Proof.
  induction ks as [|k ks IH]; simpl; [reflexivity|].
  unfold set_fragment at 1. rewrite strip_suffix_app. now rewrite IH.
Qed.

Lemma fragments_comma_free (ks : list string) :
  forallb comma_free ks = true ->
  forallb comma_free (map set_fragment ks) = true.
Proof.
  induction ks as [|k ks IH]; simpl; [reflexivity|].
  intros H. apply andb_prop in H. destruct H as [Hk Hks].
  unfold set_fragment at 1. rewrite comma_free_append, Hk. simpl.
  now apply IH.
Qed.

(** A statement built from comma-free keys names exactly these keys. *)
Lemma update_text_read_back (ks : list string) :
  ks <> [] ->
  forallb comma_free ks = true ->
  set_clause_columns (update_text (map set_fragment ks)) = Some ks.
Proof.
  intros N H. unfold set_clause_columns, update_text.
  rewrite strip_prefix_app.
  rewrite strip_suffix_app.
  rewrite split_comma_concat.
  - apply fragments_read_back.
  - destruct ks; [congruence | discriminate].
  - now apply fragments_comma_free.
Qed.

Lemma values_by_key (o : obj) :
  NoDup (keys o) ->
  map (fun key => bound (get key o)) (keys o) = values o.
Proof.
  unfold keys, values. induction o as [|[k v] o IH]; simpl; [reflexivity|].
  intros H. inversion H as [|? ? Hk Ho]; subst.
  rewrite String.eqb_refl. simpl. f_equal.
  rewrite <- (IH Ho). apply map_ext_in.
  intros key Hin. destruct (String.eqb_spec key k); [now subst|reflexivity].
Qed.


Lemma quiet_weaken (n m : nat) (fs : list (option string)) :
  quiet (n + m) fs = true -> quiet n fs = true /\ quiet m (skipn n fs) = true.
Proof.
  revert fs. induction n as [|n IH]; intros fs H; [now split|].
  destruct fs as [|[x|] fs]; simpl in *; try discriminate.
  - split; [reflexivity|]. now destruct m.
  - now apply IH.
Qed.

Lemma post_violations_dec (req : request) :
  {post_violations req = []} + {post_violations req <> []}.
Proof. destruct (post_violations req); [now left | now right]. Qed.

(* ------------------------------------------------------------------ *)
(** ** Properties of the order routes *)


(** C2 (the code departs from it). A PATCH whose body is empty passes
    validation and is not guarded: once a connection is granted the
    handler sends [UPDATE orders SET  WHERE ORD_NUM=?], a statement with
    an empty [SET] clause, with the path key as its only value; the table
    is left as it was and the request ends in 500. *)
Theorem patch_orders_empty_body_sends_empty_set (ORD_NUM : string) (w : world) :
  Validator.isInt ORD_NUM = true ->
  quiet 1 (faults w) = true ->
  let res := fst (patch_orders (keyed_request ORD_NUM []) w) in
  let w' := snd (patch_orders (keyed_request ORD_NUM []) w) in
  trace w' = (trace w ++ [GetConnection;
                          Query "UPDATE orders SET  WHERE ORD_NUM=?" [JStr ORD_NUM];
                          Release])%list
  /\ set_clause_columns "UPDATE orders SET  WHERE ORD_NUM=?" = None
  /\ status res = 500
  /\ orders w' = orders w.
Proof.
  intros I Q. cbv zeta.
  assert (V : patch_violations (keyed_request ORD_NUM []) = []).
  { unfold patch_violations, text_of. cbn [keyed_request params body get
      String.eqb Ascii.eqb Bool.eqb toString report_present app].
    rewrite I. reflexivity. }
  split; [exact (patch_orders_trace ORD_NUM [] w V Q)|].
  split; [reflexivity|].
  rewrite (patch_orders_unfold ORD_NUM [] w V).
  destruct w as [t fs tr]. cbn [faults] in Q.
  destruct fs as [|[m|] [|[m1|] fs]]; try discriminate Q; step_io;
    now split.
Qed.

(** C3. For every validated PATCH body (a non-empty one in particular),
    once a connection is granted the handler sends one statement: its text
    is [UPDATE orders SET ] followed by the fragments [key=?], one per key
    of the request body in the body's key order, joined by [, ], followed
    by [ WHERE ORD_NUM=?]; its values are the body's values under these
    keys in the same order, with the path [ORD_NUM] last.  Validation
    leaves the keys as they were, and with distinct keys the values are the
    body's value list. *)
Theorem patch_orders_statement (ORD_NUM : string) (b : obj) (w : world) :
  patch_violations (keyed_request ORD_NUM b) = [] ->
  quiet 1 (faults w) = true ->
  let body' := patch_body b in
  trace (snd (patch_orders (keyed_request ORD_NUM b) w))
  = (trace w ++
     [GetConnection;
      Query ("UPDATE orders SET "
               ++ String.concat ", " (map (fun key => key ++ "=?") (keys b))
               ++ " WHERE ORD_NUM=?")%string
            (map (fun key => bound (get key body')) (keys b) ++ [JStr ORD_NUM]);
      Release])%list
  /\ keys body' = keys b
  /\ (NoDup (keys b) ->
      map (fun key => bound (get key body')) (keys b) = values body').
Proof.
  intros V Q. cbv zeta. split; [|split].
  - exact (patch_orders_trace ORD_NUM b w V Q).
  - apply keys_patch_body.
  - intros N. rewrite <- (keys_patch_body b) at 1.
    apply values_by_key. now rewrite keys_patch_body.
Qed.

(** C4 (the code departs from it). A DELETE whose [ORD_NUM] is not an
    integer is flagged by the route's chain, but the handler never reads
    the validation result: the response is never 400, a connection is
    requested, and once it is granted the delete statement is sent with
    the raw parameter. *)
Theorem delete_orders_ignores_validation (ORD_NUM : string) (b : obj)
        (w : world) :
  Validator.isInt ORD_NUM = false ->
  let req := keyed_request ORD_NUM b in
  let res := fst (delete_orders req w) in
  let w' := snd (delete_orders req w) in
  snd (run_chains delete_orders_rules req)
  = [failure Params "ORD_NUM" "Invalid value" req]
  /\ status res <> 400
  /\ (exists evs, trace w' = (trace w ++ GetConnection :: evs)%list)
  /\ (quiet 1 (faults w) = true ->
      trace w' = (trace w ++ [GetConnection;
                              Query "DELETE FROM orders WHERE ORD_NUM=?"
                                    [JStr ORD_NUM];
                              Release])%list).
Proof.
  intros I. cbv zeta. split; [|split; [|split]].
  - normal_rules delete_orders_rules. run_rules.
    cbn [snd app holds keyed_request select params get String.eqb Ascii.eqb
         Bool.eqb toString].
    rewrite I. reflexivity.
  - rewrite (delete_orders_failed ORD_NUM b w); [discriminate|].
    right. unfold int_value. now rewrite I.
  - rewrite delete_orders_unfold.
    destruct w as [t fs tr].
    destruct fs as [|[m|] [|[m1|] fs]]; step_io;
      try (eexists; cbn [snd trace]; rewrite <- ?app_assoc; reflexivity);
      (destruct (engine _ _ t) as [[r t']|m']; [destruct (no_row_affected r)|]);
      eexists; cbn [snd trace]; rewrite <- ?app_assoc; reflexivity.
  - intros Q. rewrite delete_orders_unfold.
    destruct w as [t fs tr]. cbn [faults] in Q.
    destruct fs as [|[m|] [|[m1|] fs]]; try discriminate Q; step_io;
      try (cbn [snd trace]; rewrite <- ?app_assoc; reflexivity);
      (destruct (engine _ _ t) as [[r t']|m']; [destruct (no_row_affected r)|]);
      cbn [snd trace]; rewrite <- ?app_assoc; reflexivity.
Qed.


Lemma in_report (ok : bool) (e e' : verror) :
  In e' (report ok e) -> ok = false /\ e' = e.
Proof.
  destruct ok; simpl; [easy|]. intros [H|[]]. now split.
Qed.

(** C5 (the code departs from it). A PUT whose [ORD_AMOUNT] is -5 raises no
    validation error on [ORD_AMOUNT]: the route checks the amounts with
    [isDecimal], which accepts a signed text.  Whatever errors the response
    lists concern other fields, and with the other fields valid the request
    is not rejected. *)
Theorem put_orders_negative_amount_not_reported (ORD_NUM : string) (b : obj)
        (w : world) :
  get "ORD_AMOUNT" b = Some (JNum (-5)) ->
  let req := keyed_request ORD_NUM b in
  let res := fst (put_orders req w) in
  holds IsDecimal (get "ORD_AMOUNT" b) = true
  /\ (forall errs e,
        json res = ErrorsReply errs -> In e errs -> path e <> "ORD_AMOUNT")
  /\ (Validator.isInt ORD_NUM = true ->
      Validator.isDecimal (text_of "ADVANCE_AMOUNT" req) = true ->
      validator_isISO8601 (text_of "ORD_DATE" req) = true ->
      is_string (get "CUST_CODE" b) = true ->
      is_string (get "AGENT_CODE" b) = true ->
      is_string (get "ORD_DESCRIPTION" b) = true ->
      status res <> 400).
Proof.
  intros A. cbv zeta.
  assert (D : Validator.isDecimal
                (text_of "ORD_AMOUNT" (keyed_request ORD_NUM b)) = true).
  { unfold text_of. cbn [keyed_request body]. now rewrite A. }
  split; [|split].
  - rewrite A. reflexivity.
  - intros errs e J Hin.
    destruct (put_orders_replies ORD_NUM b w)
      as [[_ R]|[[_ [m R]]|[[_ R]|[_ R]]]];
      rewrite R in J; try discriminate J.
    inversion J; subst errs; clear J.
    unfold put_violations in Hin. rewrite D in Hin.
    repeat (apply in_app_or in Hin; destruct Hin as [Hin|Hin]);
      try (apply in_report in Hin; destruct Hin as [_ ->]; discriminate).
    destruct Hin.
  - intros I A2 Dt C1 C2 C3.
    assert (V : put_violations (keyed_request ORD_NUM b) = []).
    { unfold put_violations. rewrite D, A2, Dt.
      cbn [keyed_request params body get String.eqb Ascii.eqb Bool.eqb
           toString].
      now rewrite I, C1, C2, C3. }
    destruct (put_orders_replies ORD_NUM b w)
      as [[S R]|[[S _]|[[S _]|[S _]]]]; rewrite S; try discriminate.
    unfold put_orders in R.
    pose proof (put_errors (keyed_request ORD_NUM b)) as E.
    destruct (run_chains put_orders_rules (keyed_request ORD_NUM b))
      as [req' errs].
    cbn [snd] in E. subst errs. rewrite V in R. cbn [any] in R.
    exfalso. clear - R.
    destruct w as [t fs tr]. revert R.
    destruct fs as [|[m|] [|[m1|] fs]]; step_io; try discriminate;
      rewrite engine_update;
      (destruct (sql_int _); [|discriminate]);
      (destruct (affected _ t); discriminate).
Qed.

(** C6 (the code departs from it). A PUT that leaves [ORD_DESCRIPTION] out
    is rejected with 400, whatever its other fields: the chain of
    [ORD_DESCRIPTION] is not optional, so the missing field fails
    [isString] and is listed among the errors; the store is not touched. *)
Theorem put_orders_requires_description (ORD_NUM : string) (b : obj)
        (w : world) :
  get "ORD_DESCRIPTION" b = None ->
  let req := keyed_request ORD_NUM b in
  exists errs,
    put_orders req w = (respond 400 (ErrorsReply errs), w)
    /\ In (failure Body "ORD_DESCRIPTION" "Invalid value" req) errs.
Proof.
  intros G. cbv zeta.
  exists (put_violations (keyed_request ORD_NUM b)).
  assert (Hin : In (failure Body "ORD_DESCRIPTION" "Invalid value"
                      (keyed_request ORD_NUM b))
                   (put_violations (keyed_request ORD_NUM b))).
  { unfold put_violations. cbn [keyed_request body]. rewrite G.
    repeat (apply in_or_app; right). now left. }
  split; [|exact Hin].
  apply put_orders_rejected. intros E. now rewrite E in Hin.
Qed.

(** C7. The errors a POST collects are the violations of its six
    constraints, one [{field, message}] entry for each violated
    constraint and in the order of the constraints, so none is dropped
    after the first; when there is any, the response is 400 with that
    whole list and the store is left untouched: no connection is asked
    for and no statement is sent. *)
Theorem post_orders_reports_every_violation (req : request) (w : world) :
  snd (run_chains post_orders_rules req) = post_violations req
  /\ (post_violations req <> [] ->
      post_orders req w = (respond 400 (ErrorsReply (post_violations req)), w)).
Proof.
  split; [apply post_errors | apply post_orders_rejected].
Qed.

(** C8, as amended. For every validated PATCH body with at least one key,
    the [SET] clause of the statement sent once a connection is granted is
    made of the keys of the request body as the client sent them, all of
    them and in the body's order, each followed by [=?] and joined by
    [, ]; no allow-list is applied.  When no key holds a comma, the columns
    read back from that text are exactly the body's keys, so that a column
    of the clause is a column of [orders] only when the client's key is
    one. *)
Theorem patch_orders_columns_are_body_keys (ORD_NUM : string) (b : obj)
        (w : world) :
  patch_violations (keyed_request ORD_NUM b) = [] ->
  quiet 1 (faults w) = true ->
  b <> [] ->
  let sql := ("UPDATE orders SET "
                ++ String.concat ", " (map (fun key => key ++ "=?") (keys b))
                ++ " WHERE ORD_NUM=?")%string in
  (exists vs,
     trace (snd (patch_orders (keyed_request ORD_NUM b) w))
     = (trace w ++ [GetConnection; Query sql vs; Release])%list)
  /\ (forallb comma_free (keys b) = true ->
      set_clause_columns sql = Some (keys b)
      /\ forall c, In c (keys b) -> ~ In c column_names ->
           exists cols, set_clause_columns sql = Some cols
                        /\ In c cols /\ ~ In c column_names).
Proof.
  intros V Q N. cbv zeta.
  assert (R : forallb comma_free (keys b) = true ->
              set_clause_columns (update_text (map set_fragment (keys b)))
              = Some (keys b)).
  { intros C. apply update_text_read_back; [|exact C].
    destruct b; [congruence | discriminate]. }
  split.
  - eexists. exact (patch_orders_trace ORD_NUM b w V Q).
  - intros C. split; [exact (R C)|].
    intros c I U. exists (keys b). split; [exact (R C)|]. now split.
Qed.

(** C9. With an integer key that some row carries and no failure of the
    pool or the engine, the same DELETE issued twice answers 200
    [{message: "Order deleted", ORD_NUM}] and then 404
    [{message: "Order not found"}]; the second call leaves the table as the
    first left it, without a row under that key.  A DELETE answers 404
    exactly when its statement ran and matched no row. *)
Theorem delete_orders_twice (ORD_NUM : string) (k : Z) (b : obj) (w : world) :
  int_value ORD_NUM = Some k ->
  existsb (has_key k) (orders w) = true ->
  quiet 4 (faults w) = true ->
  let r1 := delete_orders (keyed_request ORD_NUM b) w in
  let r2 := delete_orders (keyed_request ORD_NUM b) (snd r1) in
  fst r1 = respond 200 (OrderReply "Order deleted" (Some (JStr ORD_NUM)))
  /\ fst r2 = respond 404 (MessageReply "Order not found")
  /\ orders (snd r2) = orders (snd r1)
  /\ existsb (has_key k) (orders (snd r1)) = false
  /\ (forall w0,
        status (fst (delete_orders (keyed_request ORD_NUM b) w0)) = 404 <->
        quiet 2 (faults w0) = true /\ affected k (orders w0) = 0%nat).
Proof.
  intros K P Q. cbv zeta.
  destruct (quiet_weaken 2 2 (faults w) Q) as [Q1 Q2].
  rewrite (delete_orders_quiet ORD_NUM k b w K Q1).
  cbn [fst snd].
  rewrite (delete_orders_quiet ORD_NUM k b) by (exact K || exact Q2).
  cbn [fst snd orders].
  rewrite affected_after_delete. cbn [Nat.eqb].
  pose proof (affected_present k (orders w) P) as A.
  apply Nat.eqb_neq in A. rewrite A.
  split; [reflexivity|]. split; [reflexivity|].
  split; [apply delete_twice|]. split.
  - destruct (existsb (has_key k) (filter _ (orders w))) eqn:E; [|reflexivity].
    apply affected_present in E. now rewrite affected_after_delete in E.
  - intros w0. destruct (quiet 2 (faults w0)) eqn:Q0.
    + rewrite (delete_orders_quiet ORD_NUM k b w0 K Q0). cbn [fst].
      destruct (Nat.eqb_spec (affected k (orders w0)) 0) as [Z|Z];
        cbn [status respond]; split; intros H; easy.
    + rewrite (delete_orders_failed ORD_NUM b w0) by now left.
      split; intros H; [discriminate | now destruct H].
Qed.

Lemma delete_orders_replies (ORD_NUM : string) (b : obj) (w : world) :
  status (fst (delete_orders (keyed_request ORD_NUM b) w)) = 200 ->
  json (fst (delete_orders (keyed_request ORD_NUM b) w))
  = OrderReply "Order deleted" (Some (JStr ORD_NUM)).
Proof.
  destruct (quiet 2 (faults w)) eqn:Q.
  - destruct (int_value ORD_NUM) as [k|] eqn:K.
    + rewrite (delete_orders_quiet ORD_NUM k b w K Q). cbn [fst].
      destruct (Nat.eqb _ 0); cbn; [discriminate | reflexivity].
    + rewrite (delete_orders_failed ORD_NUM b w) by now right.
      discriminate.
  - rewrite (delete_orders_failed ORD_NUM b w) by now left.
    discriminate.
Qed.

(** C10. A successful PUT or DELETE answers with [ORD_NUM] equal to the
    path parameter as it came, a string; a successful POST answers with
    [ORD_NUM] a number, the key the allocator computed
    ([(maxNum || 0) + 1] in Numbers). *)
Theorem ord_num_string_or_number (ORD_NUM : string) (b : obj) (w : world) :
  (status (fst (put_orders (keyed_request ORD_NUM b) w)) = 200 ->
   json (fst (put_orders (keyed_request ORD_NUM b) w))
   = OrderReply "Order updated" (Some (JStr ORD_NUM)))
  /\ (status (fst (delete_orders (keyed_request ORD_NUM b) w)) = 200 ->
      json (fst (delete_orders (keyed_request ORD_NUM b) w))
      = OrderReply "Order deleted" (Some (JStr ORD_NUM)))
  /\ (status (fst (post_orders (plain_request b) w)) = 201 ->
      json (fst (post_orders (plain_request b) w))
      = OrderReply "Order created successfully"
          (Some (JNum (next_ord_num (orders w))))).
Proof.
  split; [|split].
  - destruct (put_orders_replies ORD_NUM b w)
      as [[S R]|[[S R]|[[S R]|[S R]]]]; rewrite S; try discriminate.
    intros _. exact R.
  - apply delete_orders_replies.
  - destruct (post_violations_dec (plain_request b)) as [V|V].
    + destruct (quiet 3 (faults w)) eqn:Q.
      * destruct (existsb (has_key (next_ord_num (orders w))) (orders w))
          eqn:F.
        -- rewrite (post_orders_duplicate _ w V F). discriminate.
        -- rewrite (post_orders_created _ w V Q F). reflexivity.
      * rewrite (post_orders_failed _ w V Q). discriminate.
    + rewrite (post_orders_rejected _ w V). discriminate.
Qed.


(* ------------------------------------------------------------------ *)
(** ** Sessions: what the handlers ask of the pool *)

Lemma adds_ret {A : Type} (P : db_event -> Prop) (a : A) :
  adds false P (ret a).
Proof.
  intros w. exists []. cbn. rewrite app_nil_r. repeat split; [constructor|easy].
Qed.

Lemma adds_throw {A : Type} (P : db_event -> Prop) (m : string) :
  adds false P (@throw A m).
Proof.
  intros w. exists []. cbn. rewrite app_nil_r. repeat split; [constructor|easy].
Qed.

Lemma adds_query (P : db_event -> Prop) (sql : string) (vs : list jsval) :
  P (Query sql vs) -> adds true P (query sql vs).
Proof.
  intros H [t fs tr]. exists [Query sql vs].
  split; [|split; [now repeat constructor | discriminate]].
  destruct fs as [|[m|] fs]; step_io; try reflexivity;
    destruct (engine sql vs t) as [[r t']|m']; reflexivity.
Qed.

Lemma adds_weaken {A : Type} (P : db_event -> Prop) (c : io A) :
  adds true P c -> adds false P c.
Proof.
  intros H w. destruct (H w) as [qs [T [F _]]]. exists qs.
  now repeat split.
Qed.

Lemma adds_bind {A B : Type} (some : bool) (P : db_event -> Prop)
      (c : io A) (k : A -> io B) :
  adds some P c -> (forall a, adds false P (k a)) ->
  adds some P (Store.bind c k).
Proof.
  intros Hc Hk w. destruct (Hc w) as [qs [T [F N]]].
  unfold Store.bind. destruct (c w) as [[a|m] w1]; cbn [snd] in T.
  - destruct (Hk a w1) as [qs' [T' [F' _]]].
    exists (qs ++ qs')%list. rewrite T', T, app_assoc.
    split; [reflexivity|]. split; [now apply Forall_app|].
    intros S E. apply app_eq_nil in E. now apply (N S).
  - exists qs. now repeat split.
Qed.

Lemma adds_first_maxNum (P : db_event -> Prop) (result : query_result) :
  adds false P (first_maxNum result).
Proof.
  destruct result as [[|m l]|n]; cbn [first_maxNum];
    (apply adds_ret || apply adds_throw).
Qed.

Lemma answers_ret (Q : response -> Prop) (r : response) :
  Q r -> answers Q (ret r).
Proof. intros H w. exact H. Qed.

Lemma answers_bind {A : Type} (Q : response -> Prop) (c : io A)
      (k : A -> io response) :
  (forall a, answers Q (k a)) -> answers Q (Store.bind c k).
Proof.
  intros Hk w. unfold Store.bind.
  destruct (c w) as [[a|m] w1]; [apply Hk | exact I].
Qed.

Lemma answers_throw (Q : response -> Prop) (m : string) :
  answers Q (throw m).
Proof. intros w. exact I. Qed.

(** The frame of the handlers around statements that only add to the log. *)
Lemma with_connection_session (allowed : string -> Prop)
      (work : io response) (w : world) :
  adds true (sends allowed) work ->
  session allowed w (with_connection work w).
Proof.
  intros H. destruct w as [t fs tr]. unfold session, with_connection.
  destruct fs as [|[m|] fs]; step_io.
  - right. right. split; [reflexivity|].
    destruct (H {| orders := t; faults := []; trace := tr ++ [GetConnection] |})
      as [qs [T [F N]]].
    exists qs. split; [now apply N|]. split; [exact F|].
    destruct (work _) as [[r|m] [t2 f2 tr2]]; cbn [snd trace] in *;
      rewrite T, <- !app_assoc; reflexivity.
  - right. left. exists m, fs. now repeat split.
  - right. right. split; [reflexivity|].
    destruct (H {| orders := t; faults := fs; trace := tr ++ [GetConnection] |})
      as [qs [T [F N]]].
    exists qs. split; [now apply N|]. split; [exact F|].
    destruct (work _) as [[r|m] [t2 f2 tr2]]; cbn [snd trace] in *;
      rewrite T, <- !app_assoc; reflexivity.
Qed.

(** The frame answers what the statements answer, or 500 with the message
    of what was thrown. *)
Lemma with_connection_answers (Q : response -> Prop) (work : io response)
      (w : world) :
  answers Q work ->
  Q (fst (with_connection work w))
  \/ exists m, fst (with_connection work w) = respond 500 (ErrorReply m).
Proof.
  intros H. unfold with_connection.
  destruct (getConnection w) as [[u|m] w1]; [|right; now exists m].
  specialize (H w1).
  destruct (work w1) as [[r|m] w2]; cbn [fst] in *;
    [now left | right; now exists m].
Qed.

Ltac adds_statements :=
  repeat (cbv zeta;
    match goal with
    | |- adds _ _ (Store.bind _ _) => apply adds_bind; [|intros ?]
    | |- adds _ _ (ret _) => apply adds_ret
    | |- adds _ _ (throw _) => apply adds_throw
    | |- adds _ _ (first_maxNum _) => apply adds_first_maxNum
    | |- adds true _ (query _ _) =>
        apply adds_query; eexists; eexists; split; [reflexivity|]
    | |- adds false _ (query _ _) =>
        apply adds_weaken; apply adds_query; eexists; eexists;
        split; [reflexivity|]
    | |- adds _ _ (if ?b then _ else _) => destruct b
    end).

(** X1. Every request of the four mutation routes goes through the pool
    in one of three ways: rejected with 400 before the pool is asked for
    anything; refused a connection, answered 500 with the pool's message,
    nothing sent and nothing released; or granted a connection, which is
    released exactly once after the statements.  The statements of POST,
    PUT and DELETE carry only their fixed texts; PATCH alone sends a text
    it has assembled. *)
Theorem handlers_keep_sessions (req : request) (w : world) :
  session (fun sql => sql = "SELECT MAX(ORD_NUM) AS maxNum FROM orders"
                      \/ sql = sql_insert) w (post_orders req w)
  /\ session (fun sql => sql = sql_update) w (put_orders req w)
  /\ session dynamic_update w (patch_orders req w)
  /\ session (fun sql => sql = "DELETE FROM orders WHERE ORD_NUM=?") w
             (delete_orders req w).
Proof.
  split; [|split; [|split]].
  - unfold post_orders.
    destruct (run_chains post_orders_rules req) as [req' errs].
    destruct (any errs); [left; now split|].
    apply with_connection_session. adds_statements; auto.
  - unfold put_orders.
    destruct (run_chains put_orders_rules req) as [req' errs].
    destruct (any errs); [left; now split|].
    apply with_connection_session. adds_statements; auto.
  - unfold patch_orders.
    destruct (run_chains patch_orders_rules req) as [req' errs].
    destruct (any errs); [left; now split|].
    apply with_connection_session. adds_statements.
    eexists. reflexivity.
  - unfold delete_orders.
    destruct (run_chains delete_orders_rules req) as [req' errs].
    apply with_connection_session. adds_statements; auto.
Qed.

Ltac answers_within :=
  repeat (cbv zeta;
    match goal with
    | |- answers _ (Store.bind _ _) => apply answers_bind; intros ?
    | |- answers _ (throw _) => apply answers_throw
    | |- answers _ (ret _) => apply answers_ret
    | |- answers _ (if ?b then _ else _) => destruct b
    end).

(** X2. The answers of each route.  POST: 400 with the violations, 500
    with an error message, or 201 with a number as [ORD_NUM]; never 200 or
    404.  PUT: 400, 500, 404 [{message: "Order not found"}] or 200 with the
    path parameter echoed.  PATCH: the same, its 200 carrying a message
    only.  DELETE: 500, 404 or 200 with the path parameter echoed; never
    400. *)
Theorem handlers_answers (req : request) (w : world) :
  (let res := fst (post_orders req w) in
   (post_violations req <> []
    /\ res = respond 400 (ErrorsReply (post_violations req)))
   \/ (exists m, res = respond 500 (ErrorReply m))
   \/ (exists k : Z,
         res = respond 201
                 (OrderReply "Order created successfully" (Some (JNum k)))))
  /\ (let res := fst (put_orders req w) in
      (put_violations req <> []
       /\ res = respond 400 (ErrorsReply (put_violations req)))
      \/ (exists m, res = respond 500 (ErrorReply m))
      \/ res = respond 404 (MessageReply "Order not found")
      \/ res = respond 200
                 (OrderReply "Order updated" (get "ORD_NUM" (params req))))
  /\ (let res := fst (patch_orders req w) in
      (patch_violations req <> []
       /\ res = respond 400 (ErrorsReply (patch_violations req)))
      \/ (exists m, res = respond 500 (ErrorReply m))
      \/ res = respond 404 (MessageReply "Order not found")
      \/ res = respond 200 (MessageReply "Order partially updated"))
  /\ (let res := fst (delete_orders req w) in
      (exists m, res = respond 500 (ErrorReply m))
      \/ res = respond 404 (MessageReply "Order not found")
      \/ res = respond 200
                 (OrderReply "Order deleted" (get "ORD_NUM" (params req)))).
Proof.
  cbv zeta. split; [|split; [|split]].
  - unfold post_orders. pose proof (post_errors req) as E.
    destruct (run_chains post_orders_rules req) as [req' errs].
    cbn [snd] in E. subst errs.
    destruct (any (post_violations req)) eqn:A.
    + left. split; [now apply any_true | reflexivity].
    + right.
      match goal with
      | |- context [with_connection ?work w] =>
          destruct (with_connection_answers
                      (fun r => exists k : Z,
                         r = respond 201
                               (OrderReply "Order created successfully"
                                           (Some (JNum k))))
                      work w) as [H|H]
      end; [|now right|now left].
      answers_within. eexists. reflexivity.
  - unfold put_orders. pose proof (put_errors req) as E.
    pose proof (put_params req) as P.
    destruct (run_chains put_orders_rules req) as [req' errs].
    cbn [fst snd] in E, P. subst errs. rewrite P.
    destruct (any (put_violations req)) eqn:A.
    + left. split; [now apply any_true | reflexivity].
    + right.
      match goal with
      | |- context [with_connection ?work w] =>
          destruct (with_connection_answers
                      (fun r =>
                         r = respond 404 (MessageReply "Order not found")
                         \/ r = respond 200
                                  (OrderReply "Order updated"
                                     (get "ORD_NUM" (params req))))
                      work w) as [H|H]
      end; [|now right|now left].
      answers_within; [now left | now right].
  - unfold patch_orders. pose proof (patch_errors req) as E.
    destruct (run_chains patch_orders_rules req) as [req' errs].
    cbn [snd] in E. subst errs.
    destruct (any (patch_violations req)) eqn:A.
    + left. split; [now apply any_true | reflexivity].
    + right.
      match goal with
      | |- context [with_connection ?work w] =>
          destruct (with_connection_answers
                      (fun r =>
                         r = respond 404 (MessageReply "Order not found")
                         \/ r = respond 200
                                  (MessageReply "Order partially updated"))
                      work w) as [H|H]
      end; [|now right|now left].
      answers_within; [now left | now right].
  - unfold delete_orders. pose proof (delete_request req) as E.
    destruct (run_chains delete_orders_rules req) as [req' errs].
    cbn [fst] in E. subst req'.
    match goal with
    | |- context [with_connection ?work w] =>
        destruct (with_connection_answers
                    (fun r =>
                       r = respond 404 (MessageReply "Order not found")
                       \/ r = respond 200
                                (OrderReply "Order deleted"
                                   (get "ORD_NUM" (params req))))
                    work w) as [H|H]
    end; [|now right|now left].
    answers_within; [now left | now right].
Qed.

(* ------------------------------------------------------------------ *)
(** ** Failures of the pool and of the engine *)

Ltac validated E :=
  match goal with
  | |- context [run_chains ?rules ?req] =>
      let req' := fresh "req'" in
      let errs := fresh "errs" in
      pose proof (E req) as Herrs;
      destruct (run_chains rules req) as [req' errs];
      cbn [snd] in Herrs; subst errs
  end.

(** X3. When the pool refuses the connection, each of the four routes
    answers 500 with the pool's message as [error]; no statement is sent,
    nothing is released (there is no connection to release) and the table
    is unchanged.  For POST, PUT and PATCH this is for a request that
    passes validation; DELETE does not depend on it. *)
Theorem refused_connection_is_reported (req : request) (w : world)
        (m : string) (fs : list (option string)) :
  faults w = Some m :: fs ->
  let refused :=
    (respond 500 (ErrorReply m),
     {| orders := orders w; faults := fs;
        trace := (trace w ++ [GetConnection])%list |}) in
  (post_violations req = [] -> post_orders req w = refused)
  /\ (put_violations req = [] -> put_orders req w = refused)
  /\ (patch_violations req = [] -> patch_orders req w = refused)
  /\ delete_orders req w = refused.
Proof.
  intros F. cbv zeta. destruct w as [t fs0 tr]. cbn [faults] in F. subst fs0.
  split; [|split; [|split]].
  - intros V. unfold post_orders. validated post_errors. rewrite V.
    reflexivity.
  - intros V. unfold put_orders. validated put_errors. rewrite V.
    reflexivity.
  - intros V. unfold patch_orders. validated patch_errors. rewrite V.
    reflexivity.
  - unfold delete_orders.
    destruct (run_chains delete_orders_rules req) as [req' errs].
    reflexivity.
Qed.

(** X4. When a statement fails on a granted connection, the route answers
    500 with the message of the failure as [error], sends nothing further
    and releases the connection.  For POST this holds for either
    statement: when the [SELECT MAX] fails the insert is never sent, and
    when the insert fails it was sent once, after the [SELECT MAX]. *)
Theorem failed_statement_is_reported (req : request) (w : world)
        (m : string) (fs : list (option string)) :
  (faults w = None :: Some m :: fs ->
   (post_violations req = [] ->
    fst (post_orders req w) = respond 500 (ErrorReply m)
    /\ trace (snd (post_orders req w))
       = (trace w ++ [GetConnection; Query sql_select_max []; Release])%list)
   /\ (put_violations req = [] ->
       fst (put_orders req w) = respond 500 (ErrorReply m)
       /\ exists vs,
            trace (snd (put_orders req w))
            = (trace w ++ [GetConnection; Query sql_update vs; Release])%list)
   /\ (patch_violations req = [] ->
       fst (patch_orders req w) = respond 500 (ErrorReply m)
       /\ exists sql vs,
            trace (snd (patch_orders req w))
            = (trace w ++ [GetConnection; Query sql vs; Release])%list)
   /\ fst (delete_orders req w) = respond 500 (ErrorReply m)
   /\ trace (snd (delete_orders req w))
      = (trace w ++ [GetConnection;
                     Query sql_delete [bound (get "ORD_NUM" (params req))];
                     Release])%list)
  /\ (faults w = None :: None :: Some m :: fs ->
      post_violations req = [] ->
      fst (post_orders req w) = respond 500 (ErrorReply m)
      /\ exists vs,
           trace (snd (post_orders req w))
           = (trace w ++ [GetConnection; Query sql_select_max [];
                          Query sql_insert vs; Release])%list).
Proof.
  destruct w as [t fs0 tr]. cbn [faults orders trace]. split.
  - intros F. subst fs0. split; [|split; [|split]].
    + intros V. unfold post_orders. validated post_errors. rewrite V.
      cbn [any]. step_io. cbn [fst snd trace].
      now rewrite <- !app_assoc.
    + intros V. unfold put_orders. validated put_errors. rewrite V.
      cbn [any]. step_io. cbn [fst snd trace].
      split; [reflexivity|]. eexists. now rewrite <- !app_assoc.
    + intros V. unfold patch_orders. validated patch_errors. rewrite V.
      cbn [any]. step_io. cbn [fst snd trace].
      split; [reflexivity|]. eexists. eexists. now rewrite <- !app_assoc.
    + unfold delete_orders. pose proof (delete_request req) as E.
      destruct (run_chains delete_orders_rules req) as [req' errs].
      cbn [fst] in E. subst req'. step_io. cbn [fst snd trace].
      now rewrite <- !app_assoc.
  - intros F V. subst fs0. unfold post_orders. validated post_errors.
    rewrite V. cbn [any]. step_io. rewrite engine_select_max.
    step_io. cbn [fst snd trace].
    split; [reflexivity|]. eexists. now rewrite <- !app_assoc.
Qed.

(* ------------------------------------------------------------------ *)
(** ** The listing routes *)

Lemma list_rows_quiet {A : Type} (key sql : string) (table : list A)
      (w : world) :
  quiet 2 (faults w) = true ->
  list_rows key sql table w
  = ({| list_status := 200;
        list_json := Listing key (Nat.min 10 (List.length table))
                             (firstn 10 table) |},
     {| orders := orders w; faults := after_calls 2 w;
        trace := (trace w ++ [GetConnection; Query sql []; Release])%list |}).
Proof.
  intros Q. unfold after_calls. destruct w as [t fs tr].
  cbn [faults orders trace] in *. unfold list_rows, query_rows.
  destruct fs as [|[m|] [|[m1|] fs]]; try discriminate Q; step_io;
    rewrite length_firstn, <- !app_assoc; reflexivity.
Qed.

Lemma list_rows_any {A : Type} (key sql : string) (table : list A)
      (w : world) :
  orders (snd (list_rows key sql table w)) = orders w
  /\ match list_json (fst (list_rows key sql table w)) with
     | Listing key' total rows =>
         key' = key /\ total = List.length rows /\ (total <= 10)%nat
         /\ rows = firstn 10 table
         /\ list_status (fst (list_rows key sql table w)) = 200
     | ListingError _ => list_status (fst (list_rows key sql table w)) = 500
     end.
Proof.
  destruct w as [t fs tr]. unfold list_rows, query_rows.
  destruct fs as [|[m|] [|[m1|] fs]]; step_io;
    cbn [fst snd list_json list_status orders];
    repeat split; try reflexivity;
    rewrite length_firstn; apply Nat.le_min_l.
Qed.

(** X5. The three listing routes.  With no failure of the pool or the
    engine each answers 200 with the first ten rows of its table at most
    and [total] the number of rows listed (not the size of the table),
    after one [SELECT * ... LIMIT 10] on a connection it then releases.
    Whatever happens, a listing leaves the orders as they were, and its
    answer is 200 with at most ten rows counted by [total], or 500. *)
Theorem listings_return_first_ten (customer student : list obj) (w : world) :
  (quiet 2 (faults w) = true ->
   let after sql :=
     {| orders := orders w; faults := after_calls 2 w;
        trace := (trace w ++ [GetConnection; Query sql []; Release])%list |} in
   get_orders w
   = ({| list_status := 200;
         list_json := Listing "orders" (Nat.min 10 (List.length (orders w)))
                              (firstn 10 (orders w)) |},
      after "SELECT * FROM orders LIMIT 10")
   /\ get_customers customer w
      = ({| list_status := 200;
            list_json := Listing "customers"
                                 (Nat.min 10 (List.length customer))
                                 (firstn 10 customer) |},
         after "SELECT * FROM customer LIMIT 10")
   /\ get_students student w
      = ({| list_status := 200;
            list_json := Listing "students"
                                 (Nat.min 10 (List.length student))
                                 (firstn 10 student) |},
         after "SELECT * FROM student LIMIT 10"))
  /\ orders (snd (get_orders w)) = orders w
  /\ orders (snd (get_customers customer w)) = orders w
  /\ orders (snd (get_students student w)) = orders w
  /\ match list_json (fst (get_orders w)) with
     | Listing _ total rows =>
         total = List.length rows /\ (total <= 10)%nat
         /\ list_status (fst (get_orders w)) = 200
     | ListingError _ => list_status (fst (get_orders w)) = 500
     end.
Proof.
  split; [|split; [|split; [|split]]].
  - intros Q. cbv zeta. unfold get_orders, get_customers, get_students.
    rewrite !list_rows_quiet by exact Q. now repeat split.
  - apply list_rows_any.
  - apply list_rows_any.
  - apply list_rows_any.
  - unfold get_orders.
    destruct (list_rows_any "orders" "SELECT * FROM orders LIMIT 10"
                (orders w) w) as [_ H].
    destruct (list_json _); [|exact H].
    now destruct H as [_ [H1 [H2 [_ H3]]]].
Qed.

(* ------------------------------------------------------------------ *)
(** ** The keys POST hands out *)

Lemma max_ord_num_app (t : list order) (r : order) :
  max_ord_num (t ++ [r])
  = Some (match max_ord_num t with
          | None => ORD_NUM r
          | Some m => Z.max m (ORD_NUM r)
          end).
Proof.
  induction t as [|r0 t IH]; [reflexivity|].
  cbn [app max_ord_num]. rewrite IH.
  destruct (max_ord_num t); f_equal; lia.
Qed.

Lemma keys_below_next (t : list order) (r : order) :
  In r t -> (ORD_NUM r < max_or_zero t + 1)%Z.
Proof.
  intros H. unfold max_or_zero.
  destruct (max_ord_num t) as [m|] eqn:M.
  - pose proof (max_ord_num_bound t m M r H). lia.
  - apply max_ord_num_none in M. now subst.
Qed.

Lemma next_key_absent (t : list order) :
  existsb (has_key (max_or_zero t + 1)) t = false.
Proof.
  unfold max_or_zero. rewrite <- or_zero_value. apply next_key_fresh.
Qed.

Lemma max_or_zero_after_insert (t : list order) (r : order) :
  ORD_NUM r = (max_or_zero t + 1)%Z ->
  max_or_zero (t ++ [r]) = ORD_NUM r.
Proof.
  unfold max_or_zero. rewrite max_ord_num_app.
  destruct (max_ord_num t) as [m|]; intros H; [lia | reflexivity].
Qed.

Lemma existsb_has_key_app (k : Z) (t : list order) (r : order) :
  existsb (has_key k) (t ++ [r]) = existsb (has_key k) t || has_key k r.
Proof.
  rewrite existsb_app. cbn [existsb]. now rewrite orb_false_r.
Qed.

Lemma distinct_keys_app (t : list order) (r : order) :
  distinct_keys t = true ->
  existsb (has_key (ORD_NUM r)) t = false ->
  distinct_keys (t ++ [r]) = true.
Proof.
  induction t as [|r0 t IH]; [reflexivity|].
  cbn [app distinct_keys existsb]. intros D F.
  apply andb_prop in D. destruct D as [D1 D2].
  apply orb_false_elim in F. destruct F as [F1 F2].
  rewrite existsb_has_key_app, (IH D2 F2).
  apply negb_true_iff in D1. rewrite D1.
  unfold has_key in *. rewrite Z.eqb_sym, F1. reflexivity.
Qed.

Lemma others_absent (k : Z) (t : list order) :
  existsb (has_key k) t = false -> others k t = t.
Proof.
  unfold others. induction t as [|r t IH]; [reflexivity|].
  cbn [existsb filter]. intros F.
  apply orb_false_elim in F. destruct F as [F1 F2].
  rewrite F1. cbn [negb]. now rewrite IH.
Qed.

Lemma others_after_insert (k : Z) (t : list order) (r : order) :
  ORD_NUM r = k ->
  existsb (has_key k) t = false ->
  others k (t ++ [r]) = t.
Proof.
  intros K F. unfold others. rewrite filter_app.
  fold (others k t). rewrite (others_absent k t F).
  cbn [filter]. unfold has_key. rewrite K, Z.eqb_refl.
  cbn [negb]. apply app_nil_r.
Qed.

Lemma affected_after_insert (k : Z) (t : list order) (r : order) :
  ORD_NUM r = k -> affected k (t ++ [r]) <> 0%nat.
Proof.
  intros K. apply affected_present.
  rewrite existsb_has_key_app. unfold has_key at 2.
  rewrite K, Z.eqb_refl. apply orb_true_r.
Qed.

(** X6. The keys of successful creations, on a table whose keys stay
    below [2^53 - 1] in magnitude (where the Number addition of 1 is
    exact).  The key a creation allocates is greater than the key of every
    row already in the table, so a table with distinct keys keeps distinct
    keys; and the creation that follows, with nothing else written in
    between, is handed the next integer. *)
Theorem post_orders_keys_increase (req req2 : request) (w : world) :
  post_violations req = [] ->
  quiet 3 (faults w) = true ->
  (Z.abs (max_or_zero (orders w)) + 1 < 9007199254740992)%Z ->
  let k := (max_or_zero (orders w) + 1)%Z in
  let w' := snd (post_orders req w) in
  (forall r, In r (orders w) -> (ORD_NUM r < k)%Z)
  /\ (distinct_keys (orders w) = true -> distinct_keys (orders w') = true)
  /\ (post_violations req2 = [] ->
      quiet 3 (faults w') = true ->
      fst (post_orders req2 w')
      = respond 201
          (OrderReply "Order created successfully" (Some (JNum (k + 1))))).
Proof.
  intros V Q B. cbv zeta.
  assert (B1 : exact_keys (orders w)) by (unfold exact_keys; lia).
  rewrite (post_orders_created_exact req w V Q B1). cbn [snd orders faults].
  split; [|split].
  - intros r. apply keys_below_next.
  - intros D. apply distinct_keys_app; [exact D|]. apply next_key_absent.
  - intros V2 Q2.
    rewrite (post_orders_created_exact req2 _ V2) by
      (exact Q2 ||
       (unfold exact_keys; cbn [orders];
        rewrite max_or_zero_after_insert by reflexivity;
        cbn [post_row ORD_NUM]; lia)).
    cbn [fst orders]. now rewrite max_or_zero_after_insert.
Qed.

(** X7. A key is handed out again once its order is gone (on a table
    whose greatest key is below [2^53] in magnitude).  After a creation,
    deleting the order just created (by the text of its key) puts the
    table back as it was, and the next creation is given the very same
    [ORD_NUM]. *)
Theorem deleted_key_is_reused (req req2 : request) (s : string) (b : obj)
        (w : world) :
  post_violations req = [] ->
  post_violations req2 = [] ->
  quiet 8 (faults w) = true ->
  (Z.abs (max_or_zero (orders w)) < 9007199254740992)%Z ->
  let k := (max_or_zero (orders w) + 1)%Z in
  int_value s = Some k ->
  let w1 := snd (post_orders req w) in
  let w2 := snd (delete_orders (keyed_request s b) w1) in
  fst (post_orders req w)
  = respond 201 (OrderReply "Order created successfully" (Some (JNum k)))
  /\ fst (delete_orders (keyed_request s b) w1)
     = respond 200 (OrderReply "Order deleted" (Some (JStr s)))
  /\ orders w2 = orders w
  /\ fst (post_orders req2 w2)
     = respond 201 (OrderReply "Order created successfully" (Some (JNum k))).
Proof.
  intros V V2 Q B. cbv zeta. intros K.
  destruct (quiet_weaken 3 5 (faults w) Q) as [Q3 Q5].
  destruct (quiet_weaken 2 3 _ Q5) as [Q2 Q3'].
  rewrite (post_orders_created_exact req w V Q3 B). cbn [fst snd].
  rewrite (delete_orders_quiet s _ b _ K) by exact Q2.
  cbn [fst snd orders].
  pose proof (affected_after_insert (max_or_zero (orders w) + 1) (orders w)
                (post_row (max_or_zero (orders w) + 1)
                          (fst (run_chains post_orders_rules req)))
                eq_refl) as A.
  apply Nat.eqb_neq in A. rewrite A.
  fold (others (max_or_zero (orders w) + 1)
               (orders w ++ [post_row (max_or_zero (orders w) + 1)
                               (fst (run_chains post_orders_rules req))])).
  rewrite others_after_insert by (reflexivity || apply next_key_absent).
  split; [reflexivity|]. split; [reflexivity|]. split; [reflexivity|].
  rewrite (post_orders_created_exact req2 _ V2) by (exact Q3' || exact B).
  reflexivity.
Qed.

(* ------------------------------------------------------------------ *)
(** ** What the handlers bind *)

Lemma select_write_back_same (l : location) (p : string) (v : jsval)
      (req : request) :
  select l p (write_back l p v req) = Some v.
Proof.
  unfold write_back.
  destruct (strict_eq_opt (select l p req) (Some v)) eqn:E.
  - destruct (select l p req) as [x|]; [|discriminate E].
    cbn [strict_eq_opt] in E. apply strict_eq_true in E. now subst.
  - destruct l; cbn [select assign body params]; apply get_set_same.
Qed.

Ltac read_fields :=
  repeat first
    [ rewrite select_write_back_same
    | rewrite select_write_back_other by (right; reflexivity) ].

Lemma put_request_body (req : request) :
  let req' := fst (run_chains put_orders_rules req) in
  let b := body req in
  select Body "ORD_AMOUNT" req' = get "ORD_AMOUNT" b
  /\ select Body "ADVANCE_AMOUNT" req' = get "ADVANCE_AMOUNT" b
  /\ select Body "ORD_DATE" req' = get "ORD_DATE" b
  /\ select Body "CUST_CODE" req' = Some (put_text "CUST_CODE" b)
  /\ select Body "AGENT_CODE" req' = Some (put_text "AGENT_CODE" b)
  /\ select Body "ORD_DESCRIPTION" req' = Some (put_text "ORD_DESCRIPTION" b).
Proof.
  cbv zeta. normal_rules put_orders_rules. run_rules. cbn [fst].
  repeat split; read_fields; reflexivity.
Qed.

Lemma post_request_body (req : request) :
  let req' := fst (run_chains post_orders_rules req) in
  let b := body req in
  select Body "ORD_AMOUNT" req' = get "ORD_AMOUNT" b
  /\ select Body "ADVANCE_AMOUNT" req' = get "ADVANCE_AMOUNT" b
  /\ select Body "ORD_DATE" req' = get "ORD_DATE" b
  /\ select Body "CUST_CODE" req' = Some (post_text "CUST_CODE" b)
  /\ select Body "AGENT_CODE" req' = Some (post_text "AGENT_CODE" b)
  /\ select Body "ORD_DESCRIPTION" req' = Some (post_text "ORD_DESCRIPTION" b).
Proof.
  cbv zeta. normal_rules post_orders_rules. run_rules. cbn [fst].
  repeat split; read_fields; reflexivity.
Qed.

Lemma put_valid_key (s : string) (b : obj) :
  put_violations (keyed_request s b) = [] ->
  exists k, int_value s = Some k.
Proof.
  unfold put_violations, int_value.
  cbn [keyed_request params get String.eqb Ascii.eqb Bool.eqb toString].
  destruct (Validator.isInt s); [eexists; reflexivity | discriminate].
Qed.

(** The run of a PUT that passes validation when nothing fails. *)
Lemma put_orders_run (s : string) (b : obj) (w : world) :
  put_violations (keyed_request s b) = [] ->
  quiet 2 (faults w) = true ->
  exists k,
    int_value s = Some k
    /\ put_orders (keyed_request s b) w
       = (if Nat.eqb (affected k (orders w)) 0
          then respond 404 (MessageReply "Order not found")
          else respond 200 (OrderReply "Order updated" (Some (JStr s))),
          {| orders := map (fun r => if has_key k r then put_row b r else r)
                           (orders w);
             faults := after_calls 2 w;
             trace := (trace w ++
                       [GetConnection;
                        Query sql_update
                              [bound (get "ORD_AMOUNT" b);
                               bound (get "ADVANCE_AMOUNT" b);
                               bound (get "ORD_DATE" b);
                               put_text "CUST_CODE" b;
                               put_text "AGENT_CODE" b;
                               put_text "ORD_DESCRIPTION" b;
                               JStr s];
                        Release])%list |}).
Proof.
  intros V Q. destruct (put_valid_key s b V) as [k K].
  exists k. split; [exact K|].
  unfold put_orders, after_calls.
  pose proof (put_errors (keyed_request s b)) as E.
  pose proof (put_params (keyed_request s b)) as P.
  pose proof (put_request_body (keyed_request s b)) as B.
  destruct (run_chains put_orders_rules (keyed_request s b)) as [req' errs].
  cbv zeta in B. cbn [fst snd select] in E, P, B. subst errs.
  destruct B as (B1 & B2 & B3 & B4 & B5 & B6).
  rewrite V, P, B1, B2, B3, B4, B5, B6.
  cbn [any keyed_request params body get String.eqb Ascii.eqb Bool.eqb bound].
  destruct w as [t fs tr]. cbn [faults orders trace] in *.
  destruct fs as [|[m|] [|[m1|] fs]]; try discriminate Q;
    step_io; rewrite engine_update; cbn [sql_int]; rewrite K;
    (destruct (affected k t); cbn [Nat.eqb skipn no_row_affected];
     rewrite <- !app_assoc; reflexivity).
Qed.

(** X8. What a PUT that passes validation writes, the pool and the engine
    not failing.  It sends the fixed update with the amounts and the date
    as the body has them and the three text fields trimmed and then
    HTML-escaped, keyed by the path parameter; every row under that key
    takes these six values and keeps its [ORD_NUM]; the answer is 404 when
    no row carries the key and 200 otherwise. *)
Theorem put_orders_replaces_fields (s : string) (b : obj) (w : world) :
  put_violations (keyed_request s b) = [] ->
  quiet 2 (faults w) = true ->
  exists k,
    int_value s = Some k
    /\ put_orders (keyed_request s b) w
       = (if Nat.eqb (affected k (orders w)) 0
          then respond 404 (MessageReply "Order not found")
          else respond 200 (OrderReply "Order updated" (Some (JStr s))),
          {| orders := map (fun r => if has_key k r then put_row b r else r)
                           (orders w);
             faults := after_calls 2 w;
             trace := (trace w ++
                       [GetConnection;
                        Query sql_update
                              [bound (get "ORD_AMOUNT" b);
                               bound (get "ADVANCE_AMOUNT" b);
                               bound (get "ORD_DATE" b);
                               put_text "CUST_CODE" b;
                               put_text "AGENT_CODE" b;
                               put_text "ORD_DESCRIPTION" b;
                               JStr s];
                        Release])%list |}).
Proof. apply put_orders_run. Qed.

(** X9. What a POST that passes validation inserts, the pool and the
    engine not failing, on a table whose greatest key is below [2^53] in
    magnitude: one row, last in the table, under the allocated key, with
    the amounts and the date as the body has them and the three text
    fields trimmed.  The fields are checked before they are trimmed,
    so that a text of white space only passes [notEmpty] and is stored as
    the empty string. *)
Theorem post_orders_inserts_trimmed (req : request) (w : world) :
  post_violations req = [] ->
  quiet 3 (faults w) = true ->
  (Z.abs (max_or_zero (orders w)) < 9007199254740992)%Z ->
  let b := body req in
  orders (snd (post_orders req w))
  = (orders w ++
     [{| ORD_NUM := max_or_zero (orders w) + 1;
         ORD_AMOUNT := bound (get "ORD_AMOUNT" b);
         ADVANCE_AMOUNT := bound (get "ADVANCE_AMOUNT" b);
         ORD_DATE := bound (get "ORD_DATE" b);
         CUST_CODE := post_text "CUST_CODE" b;
         AGENT_CODE := post_text "AGENT_CODE" b;
         ORD_DESCRIPTION := post_text "ORD_DESCRIPTION" b |}])%list.
Proof.
  intros V Q K. cbv zeta.
  rewrite (post_orders_created_exact req w V Q K). cbn [snd orders].
  pose proof (post_request_body req) as B. cbv zeta in B.
  cbn [select] in B. destruct B as (B1 & B2 & B3 & B4 & B5 & B6).
  unfold post_row. now rewrite B1, B2, B3, B4, B5, B6.
Qed.

(* ------------------------------------------------------------------ *)
(** ** Validation of PUT and PATCH *)

(** X10. PUT and PATCH collect, like POST, one entry for each constraint
    the request violates, in the order of the constraints (for PATCH a
    field that is left out violates nothing); when there is any, the
    answer is 400 with the whole list and nothing is asked of the pool.
    In particular a path [ORD_NUM] that is not an integer is reported
    first, and the store is not reached. *)
Theorem put_patch_report_every_violation (req : request) (w : world) :
  snd (run_chains put_orders_rules req) = put_violations req
  /\ (put_violations req <> [] ->
      put_orders req w = (respond 400 (ErrorsReply (put_violations req)), w))
  /\ snd (run_chains patch_orders_rules req) = patch_violations req
  /\ (patch_violations req <> [] ->
      patch_orders req w
      = (respond 400 (ErrorsReply (patch_violations req)), w))
  /\ (Validator.isInt (toString (get "ORD_NUM" (params req))) = false ->
      hd_error (put_violations req)
      = Some (failure Params "ORD_NUM" "Invalid value" req)
      /\ hd_error (patch_violations req)
         = Some (failure Params "ORD_NUM" "ORD_NUM must be an integer" req)).
Proof.
  split; [apply put_errors|].
  split; [apply put_orders_rejected|].
  split; [apply patch_errors|].
  split; [apply patch_orders_rejected|].
  intros I. unfold put_violations, patch_violations. rewrite I.
  now split.
Qed.

Lemma in_report_present (x : option jsval) (ok : bool) (e e' : verror) :
  In e' (report_present x ok e) -> e' = e.
Proof.
  destruct x; cbn [report_present]; [|easy].
  intros H. now apply in_report in H.
Qed.

(** X11. For PATCH a field set to [null] is not a field left out.  An
    amount or a code that is absent is skipped and raises no error; the
    same field sent as [null] is checked, fails, and the request is
    rejected with 400 before the pool is asked for anything. *)
Theorem patch_orders_null_is_not_absent (s p : string) (b : obj) (w : world) :
  In p ["ORD_AMOUNT"; "ADVANCE_AMOUNT"; "CUST_CODE"; "AGENT_CODE"] ->
  let req := keyed_request s b in
  (get p b = Some JNull ->
   In (failure Body p "Invalid value" req) (patch_violations req)
   /\ patch_orders req w
      = (respond 400 (ErrorsReply (patch_violations req)), w))
  /\ (get p b = None ->
      forall e, In e (patch_violations req) -> path e <> p).
Proof.
  intros Hp. cbv zeta. split.
  - intros G.
    assert (Hin : In (failure Body p "Invalid value" (keyed_request s b))
                     (patch_violations (keyed_request s b))).
    { unfold patch_violations, text_of. cbn [keyed_request body].
      cbn [In] in Hp.
      destruct Hp as [<-|[<-|[<-|[<-|[]]]]]; rewrite G;
        cbn [report_present toString];
        [ apply in_or_app; right; apply in_or_app; left
        | do 2 (apply in_or_app; right); apply in_or_app; left
        | do 4 (apply in_or_app; right); apply in_or_app; left
        | do 5 (apply in_or_app; right) ];
        now left. }
    split; [exact Hin|].
    apply patch_orders_rejected. intros E. now rewrite E in Hin.
  - intros G e Hin. unfold patch_violations, text_of in Hin.
    cbn [keyed_request body] in Hin. cbn [In] in Hp.
    destruct Hp as [<-|[<-|[<-|[<-|[]]]]]; rewrite G in Hin;
      cbn [report_present app] in Hin;
      repeat (apply in_app_or in Hin; destruct Hin as [Hin|Hin]);
      try (apply in_report in Hin; destruct Hin as [_ ->]; discriminate);
      try (apply in_report_present in Hin; subst e; discriminate);
      try destruct Hin.
Qed.

(* ------------------------------------------------------------------ *)
(** ** What the keyed writes leave alone *)

Lemma others_after_update (k : Z) (f : order -> order) (t : list order) :
  (forall r, ORD_NUM (f r) = ORD_NUM r) ->
  others k (map (fun r => if has_key k r then f r else r) t) = others k t.
Proof.
  intros Hf. unfold others. induction t as [|r t IH]; [reflexivity|].
  cbn [map filter]. destruct (has_key k r) eqn:E.
  - unfold has_key at 1. rewrite Hf. fold (has_key k r). rewrite E.
    cbn [negb]. exact IH.
  - rewrite E. cbn [negb]. now rewrite IH.
Qed.

Lemma keys_after_update (k : Z) (f : order -> order) (t : list order) :
  (forall r, ORD_NUM (f r) = ORD_NUM r) ->
  map ORD_NUM (map (fun r => if has_key k r then f r else r) t)
  = map ORD_NUM t.
Proof.
  intros Hf. rewrite map_map. apply map_ext.
  intros r. destruct (has_key k r); [apply Hf | reflexivity].
Qed.

(** X12. What PUT and DELETE never do, whatever the body and whatever
    fails.  A PUT neither adds nor removes a row nor changes any
    [ORD_NUM], and leaves every row under another key as it was.  A DELETE
    whose path parameter is an integer text leaves the table as it was or
    removes exactly the rows under that integer, so that rows under other
    keys survive unchanged. *)
Theorem keyed_writes_spare_other_orders (s : string) (b : obj) (w : world) :
  let after_put := orders (snd (put_orders (keyed_request s b) w)) in
  let after_delete := orders (snd (delete_orders (keyed_request s b) w)) in
  map ORD_NUM after_put = map ORD_NUM (orders w)
  /\ (forall k, int_value s = Some k ->
        others k after_put = others k (orders w))
  /\ (forall k, int_value s = Some k ->
        after_delete = orders w \/ after_delete = others k (orders w)).
Proof.
  cbv zeta.
  assert (Hput :
    orders (snd (put_orders (keyed_request s b) w)) = orders w
    \/ exists k a b0 c d e f,
         int_value s = Some k
         /\ orders (snd (put_orders (keyed_request s b) w))
            = map (fun r =>
                     if has_key k r
                     then {| ORD_NUM := ORD_NUM r; ORD_AMOUNT := a;
                             ADVANCE_AMOUNT := b0; ORD_DATE := c;
                             CUST_CODE := d; AGENT_CODE := e;
                             ORD_DESCRIPTION := f |}
                     else r) (orders w)).
  { unfold put_orders.
    pose proof (put_params (keyed_request s b)) as P.
    destruct (run_chains put_orders_rules (keyed_request s b)) as [req' errs].
    cbn [fst] in P.
    destruct (any errs); [now left|]. rewrite P.
    cbn [keyed_request params get String.eqb Ascii.eqb Bool.eqb bound].
    destruct w as [t fs tr].
    destruct fs as [|[m|] [|[m1|] fs]]; step_io; try (now left);
      rewrite engine_update; cbn [sql_int];
      (destruct (int_value s) as [k|] eqn:K; [|now left]);
      right; exists k; do 6 eexists; (split; [reflexivity|]);
      destruct (affected k t); reflexivity. }
  split; [|split].
  - destruct Hput as [H|(k & a & b0 & c & d & e & f & K & H)];
      rewrite H; [reflexivity|].
    now apply keys_after_update.
  - intros k K.
    destruct Hput as [H|(k' & a & b0 & c & d & e & f & K' & H)];
      rewrite H; [reflexivity|].
    rewrite K in K'. inversion K'; subst k'.
    now apply others_after_update.
  - intros k K. rewrite delete_orders_unfold.
    destruct w as [t fs tr].
    destruct fs as [|[m|] [|[m1|] fs]]; step_io; try (now left);
      rewrite engine_delete; cbn [sql_int]; rewrite K;
      right; destruct (affected k t); reflexivity.
Qed.

(* ------------------------------------------------------------------ *)
(** ** PUT and the text it stores *)

Lemma escape_char_plain (c : ascii) :
  html_sensitive c = false -> Validator.escape_char c = String c EmptyString.
Proof.
  unfold html_sensitive, Validator.escape_char. intros H.
  repeat (apply orb_false_elim in H; destruct H as [H ?]).
  repeat match goal with E : Ascii.eqb c _ = false |- _ => rewrite E; clear E end.
  reflexivity.
Qed.

Lemma escape_char_longer (c : ascii) :
  html_sensitive c = true ->
  (1 < String.length (Validator.escape_char c))%nat.
Proof.
  unfold html_sensitive, Validator.escape_char. intros H.
  repeat (destruct (Ascii.eqb c _); [cbn; lia|]).
  discriminate H.
Qed.

Lemma escape_char_length (c : ascii) :
  (1 <= String.length (Validator.escape_char c))%nat.
Proof.
  destruct (html_sensitive c) eqn:E.
  - pose proof (escape_char_longer c E). lia.
  - rewrite (escape_char_plain c E). cbn. lia.
Qed.

Lemma escape_length (s : string) :
  (String.length s <= String.length (Validator.escape s))%nat.
Proof.
  induction s as [|c s IH]; [cbn; lia|].
  cbn [Validator.escape String.length]. rewrite length_append.
  pose proof (escape_char_length c). lia.
Qed.

Lemma escape_html_free (s : string) :
  html_free s = true -> Validator.escape s = s.
Proof.
  induction s as [|c s IH]; [reflexivity|].
  cbn [html_free Validator.escape]. intros H.
  apply andb_prop in H. destruct H as [Hc Hs].
  apply negb_true_iff in Hc.
  rewrite (escape_char_plain c Hc), (IH Hs). reflexivity.
Qed.

Lemma escape_longer (s : string) :
  html_free s = false ->
  (String.length s < String.length (Validator.escape s))%nat.
Proof.
  induction s as [|c s IH]; [discriminate|].
  cbn [html_free Validator.escape String.length]. intros H.
  rewrite length_append.
  destruct (html_sensitive c) eqn:E.
  - pose proof (escape_char_longer c E). pose proof (escape_length s). lia.
  - cbn [negb andb] in H. specialize (IH H).
    rewrite (escape_char_plain c E). cbn [String.length]. lia.
Qed.

(** X13. A PUT is a round trip for a text only when [escape] has nothing
    to rewrite.  For a description that trimming leaves alone, every row
    under the key is replaced, and the description it then holds is the
    one submitted exactly when the text has none of the eight characters
    that [escape] turns into entities. *)
Theorem put_orders_text_round_trip (s d : string) (b : obj) (w : world) :
  put_violations (keyed_request s b) = [] ->
  quiet 2 (faults w) = true ->
  get "ORD_DESCRIPTION" b = Some (JStr d) ->
  Validator.trim d = d ->
  exists k,
    int_value s = Some k
    /\ forall r, In r (orders w) -> has_key k r = true ->
         In (put_row b r) (orders (snd (put_orders (keyed_request s b) w)))
         /\ (ORD_DESCRIPTION (put_row b r) = JStr d <-> html_free d = true).
Proof.
  intros V Q G T.
  destruct (put_orders_run s b w V Q) as [k [K R]].
  exists k. split; [exact K|]. intros r Hr Hk. split.
  - rewrite R. cbn [snd orders].
    apply in_map_iff. exists r. now rewrite Hk.
  - unfold put_row, put_text. cbn [ORD_DESCRIPTION].
    rewrite G. cbn [toString]. rewrite T. split.
    + intros E. destruct (html_free d) eqn:F; [reflexivity|].
      pose proof (escape_longer d F) as L.
      inversion E as [E']. rewrite E' in L. lia.
    + intros F. now rewrite (escape_html_free d F).
Qed.

End Server.

(* ------------------------------------------------------------------ *)
(** ** The properties on sample requests

    The handlers run with the calendar-date instances of [isDate] and
    [isISO8601]. *)



Lemma patch_orders_empty_body_sends_empty_set_witness :
  trace (snd (patch_orders Calendar.ymd_date Calendar.iso_date
                (keyed_request "1" []) world_1))
  = [GetConnection; Query "UPDATE orders SET  WHERE ORD_NUM=?" [JStr "1"];
     Release]
  /\ status (fst (patch_orders Calendar.ymd_date Calendar.iso_date
                    (keyed_request "1" []) world_1)) = 500.
Proof.
  destruct (patch_orders_empty_body_sends_empty_set
              Calendar.ymd_date Calendar.iso_date "1" world_1
              eq_refl eq_refl) as [T [_ [S _]]].
  split; [exact T | exact S].
Defined.

Lemma patch_orders_statement_witness :
  patch_violations Calendar.ymd_date (keyed_request "1" three_field_body) = []
  /\ trace (snd (patch_orders Calendar.ymd_date Calendar.iso_date
                   (keyed_request "1" three_field_body) world_1))
     = [GetConnection;
        Query "UPDATE orders SET ORD_DESCRIPTION=?, ORD_AMOUNT=?, CUST_CODE=? WHERE ORD_NUM=?"
              [JStr "rush"; JNum 6000; JStr "C00002"; JStr "1"];
        Release].
Proof.
  split; [reflexivity|].
  exact (proj1 (patch_orders_statement Calendar.ymd_date Calendar.iso_date
                  "1" three_field_body world_1 eq_refl eq_refl)).
Defined.

Lemma delete_orders_ignores_validation_witness :
  Validator.isInt "abc" = false
  /\ status (fst (delete_orders Calendar.ymd_date Calendar.iso_date
                    (keyed_request "abc" []) world_1)) <> 400
  /\ trace (snd (delete_orders Calendar.ymd_date Calendar.iso_date
                   (keyed_request "abc" []) world_1))
     = [GetConnection; Query "DELETE FROM orders WHERE ORD_NUM=?" [JStr "abc"];
        Release].
Proof.
  split; [reflexivity|].
  destruct (delete_orders_ignores_validation
              Calendar.ymd_date Calendar.iso_date "abc" [] world_1 eq_refl)
    as [_ [S [_ T]]].
  split; [exact S | exact (T eq_refl)].
Defined.

Lemma put_orders_negative_amount_not_reported_witness :
  status (fst (put_orders Calendar.ymd_date Calendar.iso_date
                 (keyed_request "1" negative_amount_body) world_1)) = 200
  /\ status (fst (put_orders Calendar.ymd_date Calendar.iso_date
                    (keyed_request "1" negative_amount_body) world_1)) <> 400.
Proof.
  split; [reflexivity|].
  destruct (put_orders_negative_amount_not_reported
              Calendar.ymd_date Calendar.iso_date
              "1" negative_amount_body world_1 eq_refl) as [_ [_ H]].
  exact (H eq_refl eq_refl eq_refl eq_refl eq_refl eq_refl).
Defined.

Lemma put_orders_requires_description_witness :
  exists errs,
    put_orders Calendar.ymd_date Calendar.iso_date
      (keyed_request "1" no_description_body) world_1
    = (respond 400 (ErrorsReply errs), world_1)
    /\ In (failure Body "ORD_DESCRIPTION" "Invalid value"
             (keyed_request "1" no_description_body)) errs.
Proof.
  exact (put_orders_requires_description Calendar.ymd_date Calendar.iso_date
           "1" no_description_body world_1 eq_refl).
Defined.

Lemma post_orders_reports_every_violation_witness :
  List.length (post_violations Calendar.ymd_date (plain_request [])) = 6%nat
  /\ post_orders Calendar.ymd_date Calendar.iso_date (plain_request []) world_1
     = (respond 400
          (ErrorsReply (post_violations Calendar.ymd_date (plain_request []))),
        world_1).
Proof.
  split; [reflexivity|].
  apply (proj2 (post_orders_reports_every_violation
                  Calendar.ymd_date Calendar.iso_date (plain_request [])
                  world_1)).
  discriminate.
Defined.

(** C8 as stated fails: a PATCH with the body [{FOO: 1}] passes validation
    and sends [UPDATE orders SET FOO=? WHERE ORD_NUM=?], whose column
    [FOO] is no column of [orders]. *)
Lemma patch_columns_not_allow_listed :
  ~ patch_columns_allow_listed Calendar.ymd_date Calendar.iso_date.
Proof.
  intros H.
  assert (F : In "FOO" column_names).
  { apply (H "1" unknown_key_body world_1
             "UPDATE orders SET FOO=? WHERE ORD_NUM=?" [JNum 1; JStr "1"]
             ["FOO"] "FOO").
    - right. left. reflexivity.
    - reflexivity.
    - left. reflexivity. }
  simpl in F.
  repeat (destruct F as [F|F]; [discriminate F|]).
  exact F.
Qed.

Lemma patch_orders_columns_are_body_keys_witness :
  (exists vs,
     trace (snd (patch_orders Calendar.ymd_date Calendar.iso_date
                   (keyed_request "1" mixed_keys_body) world_1))
     = [GetConnection;
        Query "UPDATE orders SET ORD_AMOUNT=?, FOO=?, CUST_CODE=? WHERE ORD_NUM=?"
              vs;
        Release])
  /\ set_clause_columns
       "UPDATE orders SET ORD_AMOUNT=?, FOO=?, CUST_CODE=? WHERE ORD_NUM=?"
     = Some ["ORD_AMOUNT"; "FOO"; "CUST_CODE"].
Proof.
  destruct (patch_orders_columns_are_body_keys
              Calendar.ymd_date Calendar.iso_date "1" mixed_keys_body world_1
              eq_refl eq_refl) as [T R].
  - discriminate.
  - split; [exact T | exact (proj1 (R eq_refl))].
Defined.

Lemma delete_orders_twice_witness :
  fst (delete_orders Calendar.ymd_date Calendar.iso_date
         (keyed_request "1" []) world_1)
  = respond 200 (OrderReply "Order deleted" (Some (JStr "1")))
  /\ fst (delete_orders Calendar.ymd_date Calendar.iso_date
            (keyed_request "1" [])
            (snd (delete_orders Calendar.ymd_date Calendar.iso_date
                    (keyed_request "1" []) world_1)))
     = respond 404 (MessageReply "Order not found").
Proof.
  destruct (delete_orders_twice Calendar.ymd_date Calendar.iso_date
              "1" 1%Z [] world_1 eq_refl eq_refl eq_refl) as [H1 [H2 _]].
  split; [exact H1 | exact H2].
Defined.

Lemma ord_num_string_or_number_witness :
  json (fst (put_orders Calendar.ymd_date Calendar.iso_date
               (keyed_request "1" scenario_A_body) world_1))
  = OrderReply "Order updated" (Some (JStr "1"))
  /\ json (fst (delete_orders Calendar.ymd_date Calendar.iso_date
                  (keyed_request "1" scenario_A_body) world_1))
     = OrderReply "Order deleted" (Some (JStr "1"))
  /\ json (fst (post_orders Calendar.ymd_date Calendar.iso_date
                  (plain_request scenario_A_body) world_1))
     = OrderReply "Order created successfully" (Some (JNum 2)).
Proof.
  destruct (ord_num_string_or_number Calendar.ymd_date Calendar.iso_date
              "1" scenario_A_body world_1) as [H1 [H2 H3]].
  split; [exact (H1 eq_refl) | split; [exact (H2 eq_refl) | exact (H3 eq_refl)]].
Defined.


(** *** Further properties on sample requests *)

Lemma refused_connection_is_reported_witness :
  post_orders Calendar.ymd_date Calendar.iso_date
    (plain_request scenario_A_body) refusing_world
  = (respond 500 (ErrorReply "pool timeout"),
     {| orders := [order_1]; faults := []; trace := [GetConnection] |})
  /\ delete_orders Calendar.ymd_date Calendar.iso_date
       (keyed_request "1" []) refusing_world
     = (respond 500 (ErrorReply "pool timeout"),
        {| orders := [order_1]; faults := []; trace := [GetConnection] |}).
Proof.
  destruct (refused_connection_is_reported
              Calendar.ymd_date Calendar.iso_date
              (plain_request scenario_A_body) refusing_world
              "pool timeout" [] eq_refl) as [H _].
  destruct (refused_connection_is_reported
              Calendar.ymd_date Calendar.iso_date
              (keyed_request "1" []) refusing_world
              "pool timeout" [] eq_refl) as [_ [_ [_ D]]].
  split; [exact (H eq_refl) | exact D].
Defined.

Lemma failed_statement_is_reported_witness :
  (fst (delete_orders Calendar.ymd_date Calendar.iso_date
          (keyed_request "1" []) failing_statement_world)
   = respond 500 (ErrorReply "Connection lost")
   /\ trace (snd (delete_orders Calendar.ymd_date Calendar.iso_date
                    (keyed_request "1" []) failing_statement_world))
      = [GetConnection; Query sql_delete [JStr "1"]; Release])
  /\ (fst (post_orders Calendar.ymd_date Calendar.iso_date
             (plain_request scenario_A_body) failing_statement_world)
      = respond 500 (ErrorReply "Connection lost")
      /\ trace (snd (post_orders Calendar.ymd_date Calendar.iso_date
                       (plain_request scenario_A_body) failing_statement_world))
         = [GetConnection; Query sql_select_max []; Release])
  /\ fst (post_orders Calendar.ymd_date Calendar.iso_date
            (plain_request scenario_A_body) failing_insert_world)
     = respond 500 (ErrorReply "Connection lost").
Proof.
  destruct (failed_statement_is_reported
              Calendar.ymd_date Calendar.iso_date
              (keyed_request "1" []) failing_statement_world
              "Connection lost" []) as [H _].
  destruct (H eq_refl) as [_ [_ [_ D]]].
  destruct (failed_statement_is_reported
              Calendar.ymd_date Calendar.iso_date
              (plain_request scenario_A_body) failing_statement_world
              "Connection lost" []) as [S _].
  destruct (S eq_refl) as [P _].
  destruct (failed_statement_is_reported
              Calendar.ymd_date Calendar.iso_date
              (plain_request scenario_A_body) failing_insert_world
              "Connection lost" []) as [_ I].
  split; [exact D|]. split; [exact (P eq_refl)|].
  exact (proj1 (I eq_refl eq_refl)).
Defined.

Lemma listings_return_first_ten_witness :
  get_orders world_1
  = ({| list_status := 200; list_json := Listing "orders" 1 [order_1] |},
     {| orders := [order_1]; faults := [];
        trace := [GetConnection; Query "SELECT * FROM orders LIMIT 10" [];
                  Release] |}).
Proof.
  destruct (listings_return_first_ten [] [] world_1) as [H _].
  exact (proj1 (H eq_refl)).
Defined.

Lemma post_orders_keys_increase_witness :
  fst (post_orders Calendar.ymd_date Calendar.iso_date
         (plain_request scenario_A_body)
         (snd (post_orders Calendar.ymd_date Calendar.iso_date
                 (plain_request scenario_A_body) empty_world)))
  = respond 201 (OrderReply "Order created successfully" (Some (JNum 2))).
Proof.
  destruct (post_orders_keys_increase Calendar.ymd_date Calendar.iso_date
              (plain_request scenario_A_body) (plain_request scenario_A_body)
              empty_world eq_refl eq_refl eq_refl) as [_ [_ H]].
  exact (H eq_refl eq_refl).
Defined.

Lemma deleted_key_is_reused_witness :
  let w1 := snd (post_orders Calendar.ymd_date Calendar.iso_date
                   (plain_request scenario_A_body) world_1) in
  let w2 := snd (delete_orders Calendar.ymd_date Calendar.iso_date
                   (keyed_request "2" []) w1) in
  fst (post_orders Calendar.ymd_date Calendar.iso_date
         (plain_request scenario_A_body) world_1)
  = respond 201 (OrderReply "Order created successfully" (Some (JNum 2)))
  /\ orders w2 = [order_1]
  /\ fst (post_orders Calendar.ymd_date Calendar.iso_date
            (plain_request scenario_A_body) w2)
     = respond 201 (OrderReply "Order created successfully" (Some (JNum 2))).
Proof.
  destruct (deleted_key_is_reused Calendar.ymd_date Calendar.iso_date
              (plain_request scenario_A_body) (plain_request scenario_A_body)
              "2" [] world_1 eq_refl eq_refl eq_refl eq_refl eq_refl)
    as [H1 [_ [H3 H4]]].
  cbv zeta. split; [exact H1|]. split; [exact H3 | exact H4].
Defined.

Lemma put_orders_replaces_fields_witness :
  put_orders Calendar.ymd_date Calendar.iso_date
    (keyed_request "1" markup_body) world_1
  = (respond 200 (OrderReply "Order updated" (Some (JStr "1"))),
     {| orders :=
          [{| ORD_NUM := 1; ORD_AMOUNT := JNum 5000;
              ADVANCE_AMOUNT := JNum 1000; ORD_DATE := JStr "2025-09-28";
              CUST_CODE := JStr "C00001"; AGENT_CODE := JStr "A003";
              ORD_DESCRIPTION := JStr "R&amp;D &lt;urgent&gt;" |}];
        faults := [];
        trace :=
          [GetConnection;
           Query sql_update
                 [JNum 5000; JNum 1000; JStr "2025-09-28"; JStr "C00001";
                  JStr "A003"; JStr "R&amp;D &lt;urgent&gt;"; JStr "1"];
           Release] |}).
Proof.
  destruct (put_orders_replaces_fields Calendar.ymd_date Calendar.iso_date
              "1" markup_body world_1 eq_refl eq_refl) as [k [K H]].
  injection K as K. subst k. exact H.
Defined.

Lemma post_orders_inserts_trimmed_witness :
  post_violations Calendar.ymd_date (plain_request blank_code_body) = []
  /\ orders (snd (post_orders Calendar.ymd_date Calendar.iso_date
                    (plain_request blank_code_body) empty_world))
     = [{| ORD_NUM := 1; ORD_AMOUNT := JNum 5000;
           ADVANCE_AMOUNT := JNum 1000; ORD_DATE := JStr "2025-09-28";
           CUST_CODE := JStr EmptyString; AGENT_CODE := JStr "A003";
           ORD_DESCRIPTION := JStr "New order" |}].
Proof.
  split; [reflexivity|].
  exact (post_orders_inserts_trimmed Calendar.ymd_date Calendar.iso_date
           (plain_request blank_code_body) empty_world eq_refl eq_refl
           eq_refl).
Defined.

Lemma put_patch_report_every_violation_witness :
  put_orders Calendar.ymd_date Calendar.iso_date
    (keyed_request "abc" scenario_A_body) world_1
  = (respond 400
       (ErrorsReply [failure Params "ORD_NUM" "Invalid value"
                       (keyed_request "abc" scenario_A_body)]),
     world_1)
  /\ hd_error (patch_violations Calendar.ymd_date
                 (keyed_request "abc" scenario_B_body))
     = Some (failure Params "ORD_NUM" "ORD_NUM must be an integer"
               (keyed_request "abc" scenario_B_body))
  /\ put_orders Calendar.ymd_date Calendar.iso_date
       (keyed_request "1" exponent_amount_body) refusing_world
     = (respond 400
          (ErrorsReply [failure Body "ORD_AMOUNT" "Invalid value"
                          (keyed_request "1" exponent_amount_body)]),
        refusing_world).
Proof.
  destruct (put_patch_report_every_violation
              Calendar.ymd_date Calendar.iso_date
              (keyed_request "1" exponent_amount_body) refusing_world)
    as [_ [E _]].
  destruct (put_patch_report_every_violation
              Calendar.ymd_date Calendar.iso_date
              (keyed_request "abc" scenario_A_body) world_1)
    as [_ [H _]].
  destruct (put_patch_report_every_violation
              Calendar.ymd_date Calendar.iso_date
              (keyed_request "abc" scenario_B_body) world_1)
    as [_ [_ [_ [_ G]]]].
  split; [apply H; discriminate|].
  split; [exact (proj2 (G eq_refl))|].
  rewrite E by (vm_compute; discriminate).
  vm_compute. reflexivity.
Defined.

Lemma patch_orders_null_is_not_absent_witness :
  patch_orders Calendar.ymd_date Calendar.iso_date
    (keyed_request "1" null_amount_body) world_1
  = (respond 400
       (ErrorsReply [{| location_ := Body; path := "ORD_AMOUNT";
                        msg := "Invalid value"; value := Some JNull |}]),
     world_1)
  /\ forall e,
       In e (patch_violations Calendar.ymd_date
               (keyed_request "1" scenario_B_body)) ->
       path e <> "ADVANCE_AMOUNT".
Proof.
  destruct (patch_orders_null_is_not_absent
              Calendar.ymd_date Calendar.iso_date
              "1" "ORD_AMOUNT" null_amount_body world_1 (or_introl eq_refl))
    as [H _].
  destruct (patch_orders_null_is_not_absent
              Calendar.ymd_date Calendar.iso_date
              "1" "ADVANCE_AMOUNT" scenario_B_body world_1
              (or_intror (or_introl eq_refl)))
    as [_ G].
  split; [exact (proj2 (H eq_refl)) | exact (G eq_refl)].
Defined.

Lemma keyed_writes_spare_other_orders_witness :
  others 7 (orders (snd (put_orders Calendar.ymd_date Calendar.iso_date
                           (keyed_request "7" scenario_A_body) world_7)))
  = [order_1]
  /\ (orders (snd (delete_orders Calendar.ymd_date Calendar.iso_date
                     (keyed_request "7" []) world_7))
      = [order_7; order_1]
      \/ orders (snd (delete_orders Calendar.ymd_date Calendar.iso_date
                        (keyed_request "7" []) world_7))
         = [order_1]).
Proof.
  destruct (keyed_writes_spare_other_orders
              Calendar.ymd_date Calendar.iso_date
              "7" scenario_A_body world_7) as [_ [H _]].
  destruct (keyed_writes_spare_other_orders
              Calendar.ymd_date Calendar.iso_date
              "7" [] world_7) as [_ [_ D]].
  split; [exact (H 7%Z eq_refl) | exact (D 7%Z eq_refl)].
Defined.

Lemma put_orders_text_round_trip_witness :
  (forall r, In r (orders world_1) -> has_key 1 r = true ->
     ORD_DESCRIPTION (put_row markup_body r) <> JStr "R&D <urgent>")
  /\ (forall r, In r (orders world_1) -> has_key 1 r = true ->
        ORD_DESCRIPTION (put_row scenario_A_body r) = JStr "New order").
Proof.
  destruct (put_orders_text_round_trip Calendar.ymd_date Calendar.iso_date
              "1" "R&D <urgent>" markup_body world_1
              eq_refl eq_refl eq_refl eq_refl) as [k [K H]].
  destruct (put_orders_text_round_trip Calendar.ymd_date Calendar.iso_date
              "1" "New order" scenario_A_body world_1
              eq_refl eq_refl eq_refl eq_refl) as [k' [K' H']].
  injection K as K. injection K' as K'. subst k k'.
  split; intros r Hr Hk.
  - intros E. apply (proj2 (H r Hr Hk)) in E. discriminate E.
  - apply (proj2 (H' r Hr Hk)). reflexivity.
Defined.
